(** * go-simple-service: a wallet ledger over a transactional store

    Shallow embedding of [main.go]: the wallet and transaction tables, the
    four HTTP handlers (create wallet, send, history, get wallet), the random
    id generator, and the two loader goroutines of the send handler with
    their result channels. *)

From Stdlib Require Import ZArith QArith Qpower Lia String Ascii.
From stdpp Require Import gmap strings list.

Local Open Scope Z_scope.

(** ** Decimals

    [decimal.Decimal] (shopspring/decimal) is an arbitrary-precision decimal:
    an unscaled big integer [value] and an exponent [exp], standing for the
    number [value * 10 ^ exp].  [Add] and [Sub] first bring both operands to
    the smaller of the two exponents, which only multiplies a coefficient by
    a power of ten, so both are exact. *)

Record Decimal := mkDecimal { value : Z; exp : Z }.

#[global] Instance Decimal_eq_dec : EqDecision Decimal.
Proof. solve_decision. Defined.

(** The zero value of the Go struct, what [var wallet Wallet] holds. *)
Definition Zero : Decimal := mkDecimal 0 0.

Definition NewFromInt (n : Z) : Decimal := mkDecimal n 0.

(** [d.rescale(exp)]: the same number at another exponent; raising the
    exponent truncates ([big.Int.Quo]), lowering it is exact. *)
Definition rescale (d : Decimal) (e : Z) : Decimal :=
  if exp d =? e then d
  else if exp d <? e then mkDecimal (value d ÷ 10 ^ (e - exp d)) e
  else mkDecimal (value d * 10 ^ (exp d - e)) e.

Definition RescalePair (d1 d2 : Decimal) : Decimal * Decimal :=
  if exp d1 <? exp d2 then (d1, rescale d2 (exp d1))
  else if exp d2 <? exp d1 then (rescale d1 (exp d2), d2)
  else (d1, d2).

Definition Add (d d2 : Decimal) : Decimal :=
  let '(rd, rd2) := RescalePair d d2 in
  mkDecimal (value rd + value rd2) (exp rd).

Definition Sub (d d2 : Decimal) : Decimal :=
  let '(rd, rd2) := RescalePair d d2 in
  mkDecimal (value rd - value rd2) (exp rd).

Definition Sign (d : Decimal) : Z := Z.sgn (value d).

Definition IsPositive (d : Decimal) : bool := Sign d =? 1.

(** The rational number a decimal stands for. *)
Definition to_Q (d : Decimal) : Q := (inject_Z (value d) * (10 # 1) ^ exp d)%Q.

(** ** Data model *)

Record Wallet := mkWallet { Id : string; Balance : Decimal }.

(** [sql.NullTime] *)
Record NullTime := mkNullTime { Time : Z; Valid : bool }.

(** A row of [wallet_transactions], as [WalletTransaction] scans it. *)
Record WalletTransaction := mkWalletTransaction {
  wt_AuthorId : string;
  wt_SenderId : string;
  wt_Balance : Decimal;
  wt_Date : NullTime
}.

(** The JSON form of a row: fields [from], [to], [amount], [time]. *)
Record WalletTransactionDTO := mkWalletTransactionDTO {
  dto_AuthorId : string;
  dto_SenderId : string;
  dto_Balance : Decimal;
  dto_Date : string
}.

Record SendWalletRequestBody := mkSendWalletRequestBody {
  ID : string;
  Amount : Decimal
}.

Inductive error :=
| ErrNoRows                (* sql.ErrNoRows: the query matched no row *)
| ErrTxDone                (* sql.ErrTxDone: the transaction is finished *)
| ErrConstraint            (* UNIQUE constraint failed: wallets.id *)
| ErrBind                  (* the request body did not bind *)
| ErrRand                  (* crypto/rand could not be read *)
| ErrNilDeref              (* nil pointer dereference *)
| ErrIndex                 (* index out of range *)
| ErrMakeSlice             (* makeslice: len out of range *)
| ErrRandArg               (* crypto/rand: argument to Int is <= 0 *)
| ErrDriver (msg : string) (* any other failure of the store *).

#[global] Instance error_eq_dec : EqDecision error.
Proof. solve_decision. Defined.

Record Result := mkResult { res_Wallet : Wallet; Err : option error }.

(** ** The ledger store

    [wallets] has [id] as primary key, so it is a finite map from ids to
    balances; [wallet_transactions] has no key and is only ever appended to,
    so it is the list of its rows in insertion order.

    The two [decimal] columns do not hold a decimal as it was written:
    SQLite gives them numeric affinity, so the text the driver binds is
    turned into a 64-bit integer or a 64-bit float, and the driver scans
    that back into a [decimal.Decimal].  What a written decimal comes back
    as is not computed here: every statement that writes one takes the
    column's rendering as a function [column], which the environment
    supplies.  The literal [100] of wallet creation is an integer and is
    held as it is.

    One request is served at a time: what other requests do to the store
    meanwhile is not part of this development. *)

Record Store := mkStore {
  wallets : gmap string Decimal;
  wallet_transactions : list WalletTransaction
}.

(** [select * from wallets where id = ?] *)
Definition select_wallet (s : Store) (id : string) : option Wallet :=
  mkWallet id <$> wallets s !! id.

(** [insert into wallets(id, balance) values(?, ?)]: refused when the key
    is taken. *)
Definition insert_wallet (id : string) (balance : Decimal) (s : Store)
  : Store + error :=
  match wallets s !! id with
  | Some _ => inr ErrConstraint
  | None => inl (mkStore (<[id := balance]> (wallets s)) (wallet_transactions s))
  end.

(** [update wallets set balance = ? where id = ?]: touches the row with that
    id, if there is one; the row then holds what the column makes of the
    balance. *)
Definition update_balance (column : Decimal -> Decimal) (balance : Decimal)
    (id : string) (s : Store) : Store :=
  mkStore (alter (fun _ => column balance) id (wallets s)) (wallet_transactions s).

(** [insert into wallet_transactions(author_id, sender_id, balance, date)
    values(?,?,?,?)] *)
Definition insert_transaction (column : Decimal -> Decimal)
    (author_id sender_id : string) (balance : Decimal) (date : Z)
    (s : Store) : Store :=
  mkStore (wallets s)
    (wallet_transactions s
       ++ [mkWalletTransaction author_id sender_id (column balance)
             (mkNullTime date true)]).

(** [select * from wallet_transactions where author_id = ? or sender_id = ?] *)
Definition select_transactions (s : Store) (id : string) : list WalletTransaction :=
  filter (fun t => wt_AuthorId t = id \/ wt_SenderId t = id) (wallet_transactions s).

(** The three statements the send handler passes to [tx.ExecContext], run in
    the order they are written. *)
Definition send_statements (column : Decimal -> Decimal)
    (fromAmount : Decimal) (fromId : string)
    (toAmount : Decimal) (toId : string) (amount : Decimal) (now : Z)
    (s : Store) : Store :=
  let s1 := update_balance column fromAmount fromId s in
  let s2 := update_balance column toAmount toId s1 in
  insert_transaction column fromId toId amount now s2.

(** ** Transactions, responses and the log *)

Inductive TxStatus := TxOpen | TxCommitted | TxRolledBack | TxCommitFailed.

#[global] Instance TxStatus_eq_dec : EqDecision TxStatus.
Proof. solve_decision. Defined.

(** A [*sql.Tx]: its own view of the store, and whether it is still open. *)
Record Tx := mkTx { tx_store : Store; tx_status : TxStatus }.

Inductive Body :=
| NoBody
| JError (e : error)                        (* {"error": ...} *)
| JCreated (id : string) (balance : Z)      (* {"id": ..., "balance": 100} *)
| JWallet (id : string) (balance : Decimal) (* {"id": ..., "balance": ...} *)
| JRows (rows : list WalletTransactionDTO).

Record Response := mkResponse { status : Z; body : Body }.

Inductive LogItem :=
| LStr (s : string)
| LDec (d : Decimal)
| LErr (e : option error).

(** What one request can see and change: the committed store, the
    transaction it opened (if any), the log, the response written so far and
    how many times the random source was read. *)
Record World := mkWorld {
  db : Store;
  tx : option Tx;
  log : list LogItem;
  response : option Response;
  rand_pos : nat
}.

Definition set_db (s : Store) (w : World) : World :=
  mkWorld s (tx w) (log w) (response w) (rand_pos w).
Definition set_tx (t : option Tx) (w : World) : World :=
  mkWorld (db w) t (log w) (response w) (rand_pos w).
Definition set_log (l : list LogItem) (w : World) : World :=
  mkWorld (db w) (tx w) l (response w) (rand_pos w).
Definition set_response (r : option Response) (w : World) : World :=
  mkWorld (db w) (tx w) (log w) r (rand_pos w).
Definition set_rand_pos (n : nat) (w : World) : World :=
  mkWorld (db w) (tx w) (log w) (response w) n.

Definition init_world (s : Store) : World := mkWorld s None [] None 0.

(** The two loads of the send handler: of the source and of the
    destination wallet. *)
Inductive Side := SFrom | STo.

(** What the environment decides: whether a store call fails for a reason
    other than the data ([TxQueryRow_err] for the query of each loader,
    [QueryRow_err] for the wallet lookup of the two reading handlers,
    [Query_err] for the query of the records, [Next_err] and [Scan_err] for
    fetching and scanning the row at an index of its result, [Exec_err] for
    the insert of wallet creation), what a [decimal] column
    gives back for a decimal written to it, what the random source yields
    at each read of a byte and for how many draws [rand.Int] is watched,
    the clock, and how a time prints in RFC 3339. *)
Record Env := mkEnv {
  BeginTx_err : option error;
  ExecContext_err : option error;
  Commit_err : option error;
  QueryRow_err : option error;
  Query_err : option error;
  Next_err : nat -> option error;
  Scan_err : nat -> option error;
  Exec_err : option error;
  TxQueryRow_err : Side -> option error;
  Column : Decimal -> Decimal;
  rand_Reader : nat -> option N;
  rand_fuel : nat;
  Now : Z;
  RFC3339 : Z -> string
}.

(** ** The handler monad

    A handler is a state transformer on [World] that either goes on with a
    value, returns from the handler, panics (gin's recovery answers 500),
    ends the process ([log.Fatal]), or is still in a loop when it is no
    longer watched ([Spin]). *)

Inductive Flow (A : Type) :=
| Next (a : A)
| Return
| Panic (e : error)
| Fatal (e : error)
| Spin.
Arguments Next {A} a.
Arguments Return {A}.
Arguments Panic {A} e.
Arguments Fatal {A} e.
Arguments Spin {A}.

Definition M (A : Type) : Type := World -> Flow A * World.

#[global] Instance M_ret : MRet M := fun A a w => (Next a, w).

#[global] Instance M_bind : MBind M := fun A B f m w =>
  match m w with
  | (Next a, w') => f a w'
  | (Return, w') => (Return, w')
  | (Panic e, w') => (Panic e, w')
  | (Fatal e, w') => (Fatal e, w')
  | (Spin, w') => (Spin, w')
  end.

Definition Return_ {A} : M A := fun w => (Return, w).
Definition panic {A} (e : error) : M A := fun w => (Panic e, w).

Definition Println (x : LogItem) : M unit :=
  fun w => (Next tt, set_log (log w ++ [x]) w).

Definition log_Fatal {A} (e : error) : M A :=
  fun w => (Fatal e, set_log (log w ++ [LErr (Some e)]) w).

(** [c.JSON], [c.AbortWithStatus] and [c.Status] of the gin context. *)
Definition JSON (code : Z) (b : Body) : M unit :=
  fun w => (Next tt, set_response (Some (mkResponse code b)) w).
Definition AbortWithStatus (code : Z) : M unit :=
  fun w => (Next tt, set_response (Some (mkResponse code NoBody)) w).
Definition Status (code : Z) : M unit :=
  fun w => (Next tt, set_response (Some (mkResponse code NoBody)) w).

Definition StatusOK : Z := 200.
Definition StatusCreated : Z := 201.
Definition StatusBadRequest : Z := 400.
Definition StatusNotFound : Z := 404.
Definition StatusInternalServerError : Z := 500.

(** [QueryRow("select * from wallets where id = ?", id).Scan(&wallet.Id,
    &wallet.Balance)] on a transaction: the wallet stays at its zero value
    when the scan fails.  A finished transaction refuses the query; on an
    open one the query fails with [err] when the store fails on its own,
    and with [sql.ErrNoRows] when there is no such row.  The loaders are
    started only once [BeginTx] has given a transaction, so the last case
    does not arise in the handler. *)
Definition tx_QueryRow_Scan (err : option error) (t : option Tx) (id : string)
  : Result :=
  match t with
  | Some (mkTx s TxOpen) =>
      match err with
      | Some e => mkResult (mkWallet "" Zero) (Some e)
      | None =>
          match select_wallet s id with
          | Some wallet => mkResult wallet None
          | None => mkResult (mkWallet "" Zero) (Some ErrNoRows)
          end
      end
  | Some _ => mkResult (mkWallet "" Zero) (Some ErrTxDone)
  | None => mkResult (mkWallet "" Zero) (Some ErrNilDeref)
  end.

Section Handlers.

Context (env : Env).

(** *** Store calls *)

(** [db.BeginTx(ctx, nil)]: on success the transaction starts from the
    committed store. *)
Definition db_BeginTx : M (option error) := fun w =>
  match BeginTx_err env with
  | Some e => (Next (Some e), w)
  | None => (Next None, set_tx (Some (mkTx (db w) TxOpen)) w)
  end.

(** [tx.Rollback()]: the returned error is dropped by every caller. *)
Definition tx_Rollback : M unit := fun w =>
  match tx w with
  | None => (Panic ErrNilDeref, w)
  | Some (mkTx s TxOpen) => (Next tt, set_tx (Some (mkTx s TxRolledBack)) w)
  | Some _ => (Next tt, w)
  end.

(** [tx.ExecContext(ctx, stmts, args...)] *)
Definition tx_ExecContext (stmts : Store -> Store) : M (option error) := fun w =>
  match tx w with
  | None => (Panic ErrNilDeref, w)
  | Some (mkTx s TxOpen) =>
      match ExecContext_err env with
      | Some e => (Next (Some e), w)
      | None => (Next None, set_tx (Some (mkTx (stmts s) TxOpen)) w)
      end
  | Some _ => (Next (Some ErrTxDone), w)
  end.

(** [tx.Commit()]: what the transaction wrote becomes the committed store. *)
Definition tx_Commit : M (option error) := fun w =>
  match tx w with
  | None => (Panic ErrNilDeref, w)
  | Some (mkTx s TxOpen) =>
      match Commit_err env with
      | Some e => (Next (Some e), set_tx (Some (mkTx s TxCommitFailed)) w)
      | None => (Next None, set_db s (set_tx (Some (mkTx s TxCommitted)) w))
      end
  | Some _ => (Next (Some ErrTxDone), w)
  end.

(** The query of [loadByIdAsync], on the request's transaction. *)
Definition tx_load (sd : Side) (id : string) : M Result := fun w =>
  (Next (tx_QueryRow_Scan (TxQueryRow_err env sd) (tx w) id), w).

(** [db.QueryRow("select * from wallets where id = ? limit 1", id).Scan(...)] *)
Definition db_QueryRow_Scan (id : string) : M Result := fun w =>
  match QueryRow_err env with
  | Some e => (Next (mkResult (mkWallet "" Zero) (Some e)), w)
  | None =>
      match select_wallet (db w) id with
      | Some wallet => (Next (mkResult wallet None), w)
      | None => (Next (mkResult (mkWallet "" Zero) (Some ErrNoRows)), w)
      end
  end.

(** [db.Query("select * from wallet_transactions where author_id = ? or
    sender_id = ?", id, id)] *)
Definition db_Query (id : string) : M (list WalletTransaction + error) := fun w =>
  match Query_err env with
  | Some e => (Next (inr e), w)
  | None => (Next (inl (select_transactions (db w) id)), w)
  end.

(** [db.Exec("insert into wallets(id, balance) values(?,100)", id)]: fails
    when the store fails on its own, or when the id is taken. *)
Definition db_Exec_insert (id : string) : M (option error) := fun w =>
  match Exec_err env with
  | Some e => (Next (Some e), w)
  | None =>
      match insert_wallet id (NewFromInt 100) (db w) with
      | inl s => (Next None, set_db s w)
      | inr e => (Next (Some e), w)
      end
  end.

(** *** Random ids *)

Definition letters : string :=
  "0123456789ABCDEFGHIJKLMNOPQRSTUVWXYZabcdefghijklmnopqrstuvwxyz-".

(** [io.ReadFull(rand.Reader, b)] for a [b] of [k] bytes, from position
    [pos] of the source: all of them, or nothing. *)
Fixpoint rand_fill (k pos : nat) : option (list N) :=
  match k with
  | O => Some []
  | S k' =>
      match rand_Reader env pos with
      | Some raw => cons (raw mod 256)%N <$> rand_fill k' (S pos)
      | None => None
      end
  end.

(** [n.SetBytes(bytes)]: the bytes as a big-endian number. *)
Definition SetBytes (bytes : list N) : N :=
  fold_left (fun acc b => (acc * 256 + b)%N) bytes 0%N.

(** [bytes[0] &= uint8(int(1<<b) - 1)] *)
Definition mask_first (b : N) (bytes : list N) : list N :=
  match bytes with
  | [] => []
  | x :: rest => N.land x (N.ones b) :: rest
  end.

(** The [for] of [rand.Int]: draw [k] bytes, clear the high bits of the
    first, and draw again unless the number is below [max].  Nothing
    bounds the number of draws; [fuel] is how many of them are watched. *)
Fixpoint rand_Int_loop (fuel : nat) (max : N) (k : nat) (b : N) (pos : nat)
  : Flow (N + error) * nat :=
  match fuel with
  | O => (Spin, pos)
  | S fuel' =>
      match rand_fill k pos with
      | None => (Next (inr ErrRand), (pos + k)%nat)
      | Some bytes =>
          let n := SetBytes (mask_first b bytes) in
          if (n <? max)%N then (Next (inl n), (pos + k)%nat)
          else rand_Int_loop fuel' max k b (pos + k)%nat
      end
  end.

(** [rand.Int(rand.Reader, max)]: a number in [[0, max)], or the reader's
    error.  How the numbers are distributed is not modelled. *)
Definition rand_Int (max : N) : M (N + error) := fun w =>
  if (max =? 0)%N then (Panic ErrRandArg, w)
  else
    let bitLen := N.size (max - 1) in
    if (bitLen =? 0)%N then (Next (inl 0%N), w)
    else
      let k := N.to_nat ((bitLen + 7) / 8) in
      let b := if (bitLen mod 8 =? 0)%N then 8%N else (bitLen mod 8)%N in
      let '(f, pos) := rand_Int_loop (rand_fuel env) max k b (rand_pos w) in
      (f, set_rand_pos pos w).

(** The loop of [GenerateRandomString], with [k] rounds left at index [i]. *)
Fixpoint GenerateRandomString_loop (k i : nat) (ret : list ascii)
  : M (string * option error) :=
  match k with
  | O => mret (string_of_list_ascii ret, None)
  | S k' =>
      r ← rand_Int (N.of_nat (String.length letters));
      match r with
      | inr err => mret (EmptyString, Some err)
      | inl num =>
          match String.get (N.to_nat num) letters with
          | Some c => GenerateRandomString_loop k' (S i) (<[i := c]> ret)
          | None => panic ErrIndex
          end
      end
  end.

(** [n] is a Go [int]: [make([]byte, n)] panics when it is negative. *)
Definition GenerateRandomString (n : Z) : M (string * option error) :=
  if n <? 0 then panic ErrMakeSlice
  else GenerateRandomString_loop (Z.to_nat n) 0 (replicate (Z.to_nat n) zero).

(** *** POST /api/v1/wallet *)

Definition create_handler : M unit :=
  '(id, err) ← GenerateRandomString 6;
  match err with
  | Some e => panic e
  | None =>
      err ← db_Exec_insert id;
      match err with
      | Some e => log_Fatal e
      | None => JSON StatusCreated (JCreated id 100)
      end
  end.

(** *** POST /api/v1/wallet/:walletid/send

    The handler is cut where it waits on a channel: [send_begin] runs up to
    the receive on [fromCh], [send_after_from] from there to the receive on
    [toCh], [send_after_to] to the end. *)

Definition send_begin (requestBody : option SendWalletRequestBody)
  : M SendWalletRequestBody :=
  match requestBody with
  | None =>
      Println (LErr (Some ErrBind));;
      JSON StatusBadRequest (JError ErrBind);;
      Return_
  | Some requestBody =>
      err ← db_BeginTx;
      match err with
      | Some e => tx_Rollback;; log_Fatal e
      | None =>
          Println (LStr "walletResFrom");;
          mret requestBody
      end
  end.

Definition send_after_from (toId : string) (walletResFrom : Result) : M unit :=
  match Err walletResFrom with
  | Some e =>
      tx_Rollback;;
      Println (LErr (Some e));;
      AbortWithStatus StatusNotFound;;
      Return_
  | None =>
      Println (LStr "walletResTo");;
      Println (LStr toId)
  end.

Definition send_after_to (fromId toId : string) (amount : Decimal)
    (walletResFrom walletResTo : Result) : M unit :=
  match Err walletResTo with
  | Some e =>
      tx_Rollback;;
      Println (LErr (Some e));;
      AbortWithStatus StatusBadRequest;;
      Return_
  | None =>
      let fromAmount := Sub (Balance (res_Wallet walletResFrom)) amount in
      Println (LDec fromAmount);;
      let toAmount := Add (Balance (res_Wallet walletResTo)) amount in
      Println (LDec toAmount);;
      if negb (IsPositive fromAmount) || negb (IsPositive toAmount) then
        Println (LErr None);;
        AbortWithStatus StatusBadRequest;;
        Return_
      else
        err ← tx_ExecContext
                (send_statements (Column env) fromAmount fromId toAmount toId
                   amount (Now env));
        match err with
        | Some e =>
            Println (LErr (Some e));;
            tx_Rollback;;
            AbortWithStatus StatusInternalServerError;;
            Return_
        | None =>
            err ← tx_Commit;
            match err with
            | Some e =>
                Println (LErr (Some e));;
                AbortWithStatus StatusInternalServerError;;
                Return_
            | None => Status StatusOK
            end
        end
  end.

(** From the first receive on: both loads answered in the order the handler
    waits for them. *)
Definition send_join (fromId toId : string) (amount : Decimal) : M unit :=
  walletResFrom ← tx_load SFrom fromId;
  send_after_from toId walletResFrom;;
  walletResTo ← tx_load STo toId;
  send_after_to fromId toId amount walletResFrom walletResTo.

Definition send_handler (fromId : string)
    (requestBody : option SendWalletRequestBody) : M unit :=
  requestBody ← send_begin requestBody;
  let toId := ID requestBody in
  let amount := Amount requestBody in
  send_join fromId toId amount.

(** *** The goroutines of the send handler

    [go loadByIdAsync(tx, fromCh, fromId)] and [go loadByIdAsync(tx, toCh,
    toId)] run beside the handler.  A state of the three holds where each
    stands and what the two channels buffer; a step is one of them moving. *)

(** A goroutine running [loadByIdAsync]. *)
Inductive Loader :=
| LQuery (id : string)  (* before the query *)
| LSend (r : Result)    (* at [channel <- Result{...}] *)
| LDone.                (* returned *)

Inductive HandlerPc :=
| HRecvFrom                         (* at [walletResFrom := <-fromCh] *)
| HRecvTo (walletResFrom : Result)  (* at [walletResTo := <-toCh] *)
| HReturned (f : Flow unit).

(** A channel made by [make(chan Result, cap)]; [make(chan Result)] has
    capacity 0. *)
Record Chan := mkChan { cap : nat; buf : list Result }.

Definition make_chan (size : nat) : Chan := mkChan size [].

Record Sys := mkSys {
  world : World;
  handler : HandlerPc;
  ldFrom : Loader;
  ldTo : Loader;
  fromCh : Chan;
  toCh : Chan
}.

Definition loader (sd : Side) (s : Sys) : Loader :=
  match sd with SFrom => ldFrom s | STo => ldTo s end.

Definition chan (sd : Side) (s : Sys) : Chan :=
  match sd with SFrom => fromCh s | STo => toCh s end.

Definition set_loader (sd : Side) (l : Loader) (s : Sys) : Sys :=
  match sd with
  | SFrom => mkSys (world s) (handler s) l (ldTo s) (fromCh s) (toCh s)
  | STo => mkSys (world s) (handler s) (ldFrom s) l (fromCh s) (toCh s)
  end.

Definition set_buf (sd : Side) (b : list Result) (s : Sys) : Sys :=
  match sd with
  | SFrom =>
      mkSys (world s) (handler s) (ldFrom s) (ldTo s) (mkChan (cap (fromCh s)) b) (toCh s)
  | STo =>
      mkSys (world s) (handler s) (ldFrom s) (ldTo s) (fromCh s) (mkChan (cap (toCh s)) b)
  end.

Definition set_handler (h : HandlerPc) (w : World) (s : Sys) : Sys :=
  mkSys w h (ldFrom s) (ldTo s) (fromCh s) (toCh s).

Section Goroutines.

Context (fromId toId : string) (amount : Decimal).

(** The handler, waiting on the channel of side [sd], is handed [r] and runs
    to its next receive or to its return. *)
Definition receive (h : HandlerPc) (sd : Side) (r : Result) (w : World)
  : option (HandlerPc * World) :=
  match h, sd with
  | HRecvFrom, SFrom =>
      let '(f, w') := send_after_from toId r w in
      Some (match f with Next _ => HRecvTo r | _ => HReturned f end, w')
  | HRecvTo walletResFrom, STo =>
      let '(f, w') := send_after_to fromId toId amount walletResFrom r w in
      Some (HReturned f, w')
  | _, _ => None
  end.

Inductive step : Sys -> Sys -> Prop :=
| step_query sd id s :
    (* the loader runs its query on the transaction *)
    loader sd s = LQuery id ->
    step s (set_loader sd
              (LSend (tx_QueryRow_Scan (TxQueryRow_err env sd) (tx (world s)) id)) s)
| step_send_buffer sd r s :
    (* a send goes through when the buffer has room *)
    loader sd s = LSend r ->
    (length (buf (chan sd s)) < cap (chan sd s))%nat ->
    step s (set_loader sd LDone (set_buf sd (buf (chan sd s) ++ [r]) s))
| step_send_receive sd r s h' w' :
    (* or when the handler is waiting on that channel *)
    loader sd s = LSend r ->
    buf (chan sd s) = [] ->
    receive (handler s) sd r (world s) = Some (h', w') ->
    step s (set_handler h' w' (set_loader sd LDone s))
| step_receive_buffer sd r rest s h' w' :
    (* the handler takes what the buffer holds *)
    buf (chan sd s) = r :: rest ->
    receive (handler s) sd r (world s) = Some (h', w') ->
    step s (set_handler h' w' (set_buf sd rest s)).

(** The state right after the two [go] statements, with channels of the
    given capacities. *)
Definition spawn_with (cFrom cTo : Chan) (w : World) : Sys :=
  mkSys w HRecvFrom (LQuery fromId) (LQuery toId) cFrom cTo.

(** [fromCh := make(chan Result)], [toCh := make(chan Result)] *)
Definition spawn (w : World) : Sys := spawn_with (make_chan 0) (make_chan 0) w.

Definition terminal (s : Sys) : Prop := forall s', ~ step s s'.

End Goroutines.

(** *** GET /api/v1/wallet/:walletid/history *)

Definition to_DTO (row : WalletTransaction) : WalletTransactionDTO :=
  mkWalletTransactionDTO (wt_AuthorId row) (wt_SenderId row) (wt_Balance row)
    (RFC3339 env (Time (wt_Date row))).

(** The [for response.Next()] loop, at the row of index [i].
    [response.Next()] is false when the rows are exhausted and also when
    fetching the next row fails; the handler does not ask [response.Err()]
    which of the two it was. *)
Fixpoint history_rows (i : nat) (response : list WalletTransaction)
    (rows : list WalletTransactionDTO) : M (list WalletTransactionDTO) :=
  match response with
  | [] => mret rows
  | row :: response' =>
      match Next_err env i with
      | Some _ => mret rows
      | None =>
          match Scan_err env i with
          | Some e =>
              Println (LErr (Some e));;
              AbortWithStatus StatusNotFound;;
              Return_
          | None => history_rows (S i) response' (rows ++ [to_DTO row])
          end
      end
  end.

Definition history_handler (userInputId : string) : M unit :=
  res ← db_QueryRow_Scan userInputId;
  match Err res with
  | Some e =>
      Println (LErr (Some e));;
      AbortWithStatus StatusNotFound;;
      Return_
  | None =>
      r ← db_Query userInputId;
      match r with
      | inr e =>
          Println (LErr (Some e));;
          AbortWithStatus StatusNotFound;;
          Return_
      | inl response =>
          rows ← history_rows 0 response [];
          JSON StatusOK (JRows rows)
      end
  end.

(** *** GET /api/v1/wallet/:walletid *)

Definition get_handler (userInputId : string) : M unit :=
  res ← db_QueryRow_Scan userInputId;
  match Err res with
  | Some _ => AbortWithStatus StatusNotFound
  | None =>
      JSON StatusOK (JWallet (Id (res_Wallet res)) (Balance (res_Wallet res)))
  end.

End Handlers.

(** ** Serving one request *)

Definition serve (h : M unit) (s : Store) : Flow unit * World :=
  h (init_world s).

(** The status the client receives: 500 from gin's recovery after a panic,
    nothing when the process ended or the handler has not returned, 200
    when the handler wrote none. *)
Definition http_status (o : Flow unit * World) : option Z :=
  match o.1 with
  | Fatal _ => None
  | Spin => None
  | Panic _ => Some StatusInternalServerError
  | _ => Some (match response o.2 with Some r => status r | None => StatusOK end)
  end.

(** The Transfer Validator: the condition under which the send handler goes
    on to write, as a function of the two balances and the amount. *)
Definition validate (sourceBalance destinationBalance amount : Decimal) : bool :=
  let fromAmount := Sub sourceBalance amount in
  let toAmount := Add destinationBalance amount in
  negb (negb (IsPositive fromAmount) || negb (IsPositive toAmount)).

Definition tx_status_of (w : World) : option TxStatus := tx_status <$> tx w.

(** An environment in which no store call fails for a reason of its own. *)
Definition no_faults (column : Decimal -> Decimal) (rand : nat -> option N)
    (fuel : nat) (now : Z) (fmt : Z -> string) : Env :=
  mkEnv None None None None None (fun _ => None) (fun _ => None) None
    (fun _ => None) column rand fuel now fmt.

Definition faultless (env : Env) : Prop :=
  BeginTx_err env = None /\ ExecContext_err env = None /\
  Commit_err env = None /\ QueryRow_err env = None /\ Query_err env = None /\
  (forall i, Next_err env i = None) /\ (forall i, Scan_err env i = None) /\
  Exec_err env = None /\ forall sd, TxQueryRow_err env sd = None.

(** ** Sample stores and environments *)

Definition two_wallets : Store :=
  mkStore (<["X" := NewFromInt 100]> (<["Y" := NewFromInt 100]> ∅)) [].

(** How the [decimal] columns render the decimals that the examples below
    write.  An integer is held as it is written.  The three others have
    more digits than a 64-bit float holds and come back as a float next
    to them: 100.1234567890123456789 as 100.12345678901235,
    99.8765432109876543211 as 99.87654321098765 and 0.1234567890123456789
    as 0.12345678901234568.  The examples write no other value. *)
Definition sample_column (d : Decimal) : Decimal :=
  if decide (d = mkDecimal 1001234567890123456789 (-19))
  then mkDecimal 10012345678901235 (-14)
  else if decide (d = mkDecimal 998765432109876543211 (-19))
  then mkDecimal 9987654321098765 (-14)
  else if decide (d = mkDecimal 1234567890123456789 (-19))
  then mkDecimal 12345678901234568 (-17)
  else d.

Definition plain_env : Env :=
  no_faults sample_column (fun n => Some (N.of_nat n)) 8 1700000000
    (fun _ => "2023-11-14T22:13:20Z").

(** An amount with 19 digits after the point. *)
Definition long_amount : Decimal := mkDecimal 1234567890123456789 (-19).

(** ** Measuring the goroutines *)

(** Both channels as [make(chan Result)] leaves them: no capacity, nothing
    buffered. *)
Definition unbuffered (s : Sys) : Prop :=
  cap (fromCh s) = 0%nat /\ buf (fromCh s) = [] /\
  cap (toCh s) = 0%nat /\ buf (toCh s) = [].

(** How many moves a goroutine has left at most. *)
Definition loader_left (l : Loader) : nat :=
  match l with LQuery _ => 2 | LSend _ => 1 | LDone => 0 end.

Definition handler_left (h : HandlerPc) : nat :=
  match h with HRecvFrom => 2 | HRecvTo _ => 1 | HReturned _ => 0 end.

Definition moves_left (s : Sys) : nat :=
  (handler_left (handler s) + loader_left (ldFrom s) + loader_left (ldTo s))%nat.

(** What holds of every state the handler and its two loaders can reach
    from [spawn fromId toId w0]; [send_after_from] and [send_join] are run
    on [w0]. *)
Definition reached (env : Env) (fromId toId : string) (amount : Decimal)
    (w0 : World) (s : Sys) : Prop :=
  let rf := tx_QueryRow_Scan (TxQueryRow_err env SFrom) (tx w0) fromId in
  let rt := tx_QueryRow_Scan (TxQueryRow_err env STo) (tx w0) toId in
  unbuffered s /\
  match handler s with
  | HRecvFrom =>
      world s = w0 /\
      (ldFrom s = LQuery fromId \/ ldFrom s = LSend rf) /\
      (ldTo s = LQuery toId \/ ldTo s = LSend rt)
  | HRecvTo r =>
      r = rf /\ Err rf = None /\
      send_after_from toId rf w0 = (Next tt, world s) /\
      tx (world s) = tx w0 /\
      ldFrom s = LDone /\
      (ldTo s = LQuery toId \/ ldTo s = LSend rt)
  | HReturned f =>
      (f, world s) = send_join env fromId toId amount w0 /\
      ldFrom s = LDone /\
      (Err rf = None -> ldTo s = LDone) /\
      (Err rf <> None -> ldTo s = LQuery toId \/ exists r, ldTo s = LSend r)
  end.

(** The world in which the send handler of [plain_env] spawns its loaders,
    on the store [two_wallets]. *)
Definition spawned_world : World :=
  mkWorld two_wallets (Some (mkTx two_wallets TxOpen)) [LStr "walletResFrom"] None 0.

(** Where a transfer of 30 from "X" to "Y" ends when both loads were
    received. *)
Definition delivered_state : Sys :=
  mkSys (send_join plain_env "X" "Y" (NewFromInt 30) spawned_world).2
    (HReturned (Next tt)) LDone LDone (make_chan 0) (make_chan 0).

(** Where a transfer from the unknown wallet "Z" ends: the handler has
    answered, the destination loader stands at its send. *)
Definition abandoned_state : Sys :=
  mkSys (send_join plain_env "Z" "Y" (NewFromInt 30) spawned_world).2
    (HReturned Return) LDone
    (LSend (mkResult (mkWallet "" Zero) (Some ErrTxDone)))
    (make_chan 0) (make_chan 0).

(** ** The service as a whole

    The four routes [main] registers under [/api/v1/wallet], and the
    process serving one request after the other on the same store: a panic
    is caught by gin's recovery and the process goes on, [log.Fatal] ends
    it; a handler that does not return has written nothing, and the
    process goes on with the other requests. *)

Inductive Request :=
| PostWallet                                         (* POST ""             *)
| PostSend (walletid : string)
           (requestBody : option SendWalletRequestBody)
                                                     (* POST ":walletid/send" *)
| GetHistory (walletid : string)                     (* GET ":walletid/history" *)
| GetWallet (walletid : string).                     (* GET ":walletid"     *)

Definition handle (env : Env) (r : Request) : M unit :=
  match r with
  | PostWallet => create_handler env
  | PostSend walletid requestBody => send_handler env walletid requestBody
  | GetHistory walletid => history_handler env walletid
  | GetWallet walletid => get_handler env walletid
  end.

(** Each request comes with the environment it meets. *)
Fixpoint serve_all (reqs : list (Env * Request)) (s : Store) : Store :=
  match reqs with
  | [] => s
  | (env, r) :: reqs' =>
      let o := serve (handle env r) s in
      match o.1 with
      | Fatal _ => db o.2
      | _ => serve_all reqs' (db o.2)
      end
  end.

(** The store right after the two [create table if not exists] on a new
    database file. *)
Definition empty_store : Store := mkStore ∅ [].

(** *** What the store keeps *)

Definition balances_positive (s : Store) : Prop :=
  forall id b, wallets s !! id = Some b -> IsPositive b = true.

Definition records_resolve (s : Store) : Prop :=
  forall t, t ∈ wallet_transactions s ->
    is_Some (wallets s !! wt_AuthorId t) /\ is_Some (wallets s !! wt_SenderId t).

Definition ids_well_formed (s : Store) : Prop :=
  forall id, is_Some (wallets s !! id) ->
    String.length id = 6%nat /\
    Forall (fun c => c ∈ list_ascii_of_string letters) (list_ascii_of_string id).

(** A column that renders no positive decimal as zero or less. *)
Definition column_keeps_positive (env : Env) : Prop :=
  forall d, IsPositive d = true -> IsPositive (Column env d) = true.

Definition store_grows (s s' : Store) : Prop :=
  (forall id, is_Some (wallets s !! id) -> is_Some (wallets s' !! id)) /\
  wallet_transactions s `prefix_of` wallet_transactions s'.

(** ** The other generators *)

(** The symbol that a byte the draw accepts selects:
    [letters[num.Int64()]] for the low six bits of the byte. *)
Definition letter_of (raw : N) : ascii :=
  match String.get (N.to_nat (N.land (raw mod 256) 63)) letters with
  | Some c => c
  | None => zero
  end.

(** [rand.Read(b)] for a [b] of [n] bytes. *)
Definition rand_Read (env : Env) (n : nat) : M (list N * option error) := fun w =>
  let w' := set_rand_pos (rand_pos w + n) w in
  match rand_fill env n (rand_pos w) with
  | Some b => (Next (b, None), w')
  | None => (Next (replicate n 0%N, Some ErrRand), w')
  end.

(** [GenerateRandomBytes]: [n] is a Go [int], and [make([]byte, n)] panics
    when it is negative; [nil] stands as the empty list. *)
Definition GenerateRandomBytes (env : Env) (n : Z) : M (list N * option error) :=
  if n <? 0 then panic ErrMakeSlice
  else
    '(b, err) ← rand_Read env (Z.to_nat n);
    match err with
    | Some e => mret ([], Some e)
    | None => mret (b, None)
    end.

(** The alphabet of [base64.URLEncoding]. *)
Definition encodeURL : string :=
  "ABCDEFGHIJKLMNOPQRSTUVWXYZabcdefghijklmnopqrstuvwxyz0123456789-_".

Definition encode_char (v : N) : ascii :=
  match String.get (N.to_nat (N.land v 63)) encodeURL with
  | Some c => c
  | None => zero
  end.

(** [base64.URLEncoding.EncodeToString]: three bytes give four symbols, a
    rest of one or two bytes is filled up with [=]. *)
Fixpoint EncodeToString (src : list N) : string :=
  match src with
  | b0 :: b1 :: b2 :: rest =>
      let val := N.lor (N.lor (N.shiftl b0 16) (N.shiftl b1 8)) b2 in
      String (encode_char (N.shiftr val 18))
        (String (encode_char (N.shiftr val 12))
           (String (encode_char (N.shiftr val 6))
              (String (encode_char val) (EncodeToString rest))))
  | [b0; b1] =>
      let val := N.lor (N.shiftl b0 16) (N.shiftl b1 8) in
      String (encode_char (N.shiftr val 18))
        (String (encode_char (N.shiftr val 12))
           (String (encode_char (N.shiftr val 6)) "="))
  | [b0] =>
      let val := N.shiftl b0 16 in
      String (encode_char (N.shiftr val 18))
        (String (encode_char (N.shiftr val 12)) "==")
  | [] => EmptyString
  end.

(** [GenerateRandomStringURLSafe]: the bytes are encoded whether or not
    there was an error. *)
Definition GenerateRandomStringURLSafe (env : Env) (n : Z)
  : M (string * option error) :=
  '(b, err) ← GenerateRandomBytes env n;
  mret (EncodeToString b, err).

(** ** More sample environments, stores and requests *)

(** As [plain_env], but [tx.ExecContext] fails. *)
Definition exec_failing_env : Env :=
  mkEnv None (Some (ErrDriver "disk I/O error")) None None None
    (fun _ => None) (fun _ => None) None (fun _ => None) sample_column
    (fun n => Some (N.of_nat n)) 8 1700000000 (fun _ => "2023-11-14T22:13:20Z").

(** As [plain_env], but the lookup of a wallet fails. *)
Definition query_failing_env : Env :=
  mkEnv None None None (Some (ErrDriver "database is locked")) None
    (fun _ => None) (fun _ => None) None (fun _ => None) sample_column
    (fun n => Some (N.of_nat n)) 8 1700000000 (fun _ => "2023-11-14T22:13:20Z").

(** As [plain_env], but the insert of wallet creation fails. *)
Definition insert_failing_env : Env :=
  mkEnv None None None None None (fun _ => None) (fun _ => None)
    (Some (ErrDriver "database is locked")) (fun _ => None) sample_column
    (fun n => Some (N.of_nat n)) 8 1700000000 (fun _ => "2023-11-14T22:13:20Z").

(** As [plain_env], but the random source cannot be read a fourth time. *)
Definition short_rand_env : Env :=
  mkEnv None None None None None (fun _ => None) (fun _ => None) None
    (fun _ => None) sample_column
    (fun n => if (n <? 3)%nat then Some (N.of_nat n) else None)
    8 1700000000 (fun _ => "2023-11-14T22:13:20Z").

(** As [plain_env], but the random source yields the bytes 63, 64, 5 and
    then 7 for ever. *)
Definition redraw_env : Env :=
  mkEnv None None None None None (fun _ => None) (fun _ => None) None
    (fun _ => None) sample_column
    (fun n => Some (match n with 0%nat => 63 | 1%nat => 64 | 2%nat => 5 | _ => 7 end)%N)
    8 1700000000 (fun _ => "2023-11-14T22:13:20Z").

(** As [plain_env], but every byte of the random source is 63. *)
Definition stuck_rand_env : Env :=
  mkEnv None None None None None (fun _ => None) (fun _ => None) None
    (fun _ => None) sample_column
    (fun _ => Some 63%N) 8 1700000000 (fun _ => "2023-11-14T22:13:20Z").

(** [two_wallets] after 30 went from "X" to "Y". *)
Definition after_transfer : Store :=
  mkStore (<["X" := NewFromInt 70]> (<["Y" := NewFromInt 130]> ∅))
    [mkWalletTransaction "X" "Y" (NewFromInt 30) (mkNullTime 1700000000 true)].

(** A store in which the id that [plain_env] draws first is taken. *)
Definition taken_store : Store :=
  mkStore (<["012345" := NewFromInt 100]> ∅) [].

(** A wallet is created and sends 30 to itself, then is read. *)
Definition sample_requests : list (Env * Request) :=
  [ (plain_env, PostWallet);
    (plain_env, PostSend "012345" (Some (mkSendWalletRequestBody "012345" (NewFromInt 30))));
    (plain_env, GetHistory "012345");
    (plain_env, GetWallet "012345") ].

(** What the column makes of three more values: 1e-400 comes back as 0, and
    the values next to 100 and 200 by that much as 100 and 200. *)
Definition underflow_column (d : Decimal) : Decimal :=
  if decide (d = mkDecimal 1 (-400)) then mkDecimal 0 0
  else if decide (d = mkDecimal (10 ^ 402 - 1) (-400)) then mkDecimal 100 0
  else if decide (d = mkDecimal (2 * 10 ^ 402 - 1) (-400)) then mkDecimal 200 0
  else d.

Definition underflow_env : Env :=
  no_faults underflow_column (fun n => Some (N.of_nat n)) 8 1700000000
    (fun _ => "2023-11-14T22:13:20Z").

(** 100 less 1e-400. *)
Definition almost_all : Decimal := mkDecimal (10 ^ 402 - 1) (-400).

(** As [plain_env], but the query of the records fails. *)
Definition records_failing_env : Env :=
  mkEnv None None None None (Some (ErrDriver "database is locked"))
    (fun _ => None) (fun _ => None) None (fun _ => None) sample_column
    (fun n => Some (N.of_nat n)) 8 1700000000 (fun _ => "2023-11-14T22:13:20Z").

(** As [plain_env], but the first row of a result cannot be scanned. *)
Definition scan_failing_env : Env :=
  mkEnv None None None None None (fun _ => None)
    (fun i => match i with O => Some (ErrDriver "unsupported Scan") | _ => None end)
    None (fun _ => None) sample_column
    (fun n => Some (N.of_nat n)) 8 1700000000 (fun _ => "2023-11-14T22:13:20Z").

(** As [plain_env], but the first row of a result cannot be fetched. *)
Definition cut_rows_env : Env :=
  mkEnv None None None None None
    (fun i => match i with O => Some (ErrDriver "interrupted") | _ => None end)
    (fun _ => None) None (fun _ => None) sample_column
    (fun n => Some (N.of_nat n)) 8 1700000000 (fun _ => "2023-11-14T22:13:20Z").

(** As [plain_env], but the query of the loader on side [sd] fails. *)
Definition load_failing_env (sd : Side) : Env :=
  mkEnv None None None None None (fun _ => None) (fun _ => None) None
    (fun sd' =>
       match sd, sd' with
       | SFrom, SFrom | STo, STo => Some (ErrDriver "database is locked")
       | _, _ => None
       end)
    sample_column
    (fun n => Some (N.of_nat n)) 8 1700000000 (fun _ => "2023-11-14T22:13:20Z").

(** ** The cases of a send *)

(** The cases of a send, for every environment: which one applies and the
    outcome it has. *)
Inductive SendCase (env : Env) (s : Store) (fromId : string)
    : option SendWalletRequestBody -> Flow unit * World -> Prop :=
| case_unbound :
    SendCase env s fromId None
      (Return, mkWorld s None [LErr (Some ErrBind)]
                 (Some (mkResponse StatusBadRequest (JError ErrBind))) 0)
| case_begin_failed toId amount e :
    BeginTx_err env = Some e ->
    SendCase env s fromId (Some (mkSendWalletRequestBody toId amount))
      (Panic ErrNilDeref, init_world s)
| case_from_failed toId amount e :
    BeginTx_err env = None ->
    TxQueryRow_err env SFrom = Some e ->
    SendCase env s fromId (Some (mkSendWalletRequestBody toId amount))
      (Return, mkWorld s (Some (mkTx s TxRolledBack))
                 [LStr "walletResFrom"; LErr (Some e)]
                 (Some (mkResponse StatusNotFound NoBody)) 0)
| case_from_missing toId amount :
    BeginTx_err env = None ->
    TxQueryRow_err env SFrom = None ->
    wallets s !! fromId = None ->
    SendCase env s fromId (Some (mkSendWalletRequestBody toId amount))
      (Return, mkWorld s (Some (mkTx s TxRolledBack))
                 [LStr "walletResFrom"; LErr (Some ErrNoRows)]
                 (Some (mkResponse StatusNotFound NoBody)) 0)
| case_to_failed toId amount B e :
    BeginTx_err env = None ->
    TxQueryRow_err env SFrom = None ->
    wallets s !! fromId = Some B ->
    TxQueryRow_err env STo = Some e ->
    SendCase env s fromId (Some (mkSendWalletRequestBody toId amount))
      (Return, mkWorld s (Some (mkTx s TxRolledBack))
                 [LStr "walletResFrom"; LStr "walletResTo"; LStr toId; LErr (Some e)]
                 (Some (mkResponse StatusBadRequest NoBody)) 0)
| case_to_missing toId amount B :
    BeginTx_err env = None ->
    TxQueryRow_err env SFrom = None ->
    wallets s !! fromId = Some B ->
    TxQueryRow_err env STo = None ->
    wallets s !! toId = None ->
    SendCase env s fromId (Some (mkSendWalletRequestBody toId amount))
      (Return, mkWorld s (Some (mkTx s TxRolledBack))
                 [LStr "walletResFrom"; LStr "walletResTo"; LStr toId;
                  LErr (Some ErrNoRows)]
                 (Some (mkResponse StatusBadRequest NoBody)) 0)
| case_rejected toId amount B D :
    BeginTx_err env = None ->
    TxQueryRow_err env SFrom = None ->
    wallets s !! fromId = Some B ->
    TxQueryRow_err env STo = None ->
    wallets s !! toId = Some D ->
    validate B D amount = false ->
    SendCase env s fromId (Some (mkSendWalletRequestBody toId amount))
      (Return, mkWorld s (Some (mkTx s TxOpen))
                 [LStr "walletResFrom"; LStr "walletResTo"; LStr toId;
                  LDec (Sub B amount); LDec (Add D amount); LErr None]
                 (Some (mkResponse StatusBadRequest NoBody)) 0)
| case_exec_failed toId amount B D e :
    BeginTx_err env = None ->
    TxQueryRow_err env SFrom = None ->
    wallets s !! fromId = Some B ->
    TxQueryRow_err env STo = None ->
    wallets s !! toId = Some D ->
    validate B D amount = true ->
    ExecContext_err env = Some e ->
    SendCase env s fromId (Some (mkSendWalletRequestBody toId amount))
      (Return, mkWorld s (Some (mkTx s TxRolledBack))
                 [LStr "walletResFrom"; LStr "walletResTo"; LStr toId;
                  LDec (Sub B amount); LDec (Add D amount); LErr (Some e)]
                 (Some (mkResponse StatusInternalServerError NoBody)) 0)
| case_commit_failed toId amount B D e :
    BeginTx_err env = None ->
    TxQueryRow_err env SFrom = None ->
    wallets s !! fromId = Some B ->
    TxQueryRow_err env STo = None ->
    wallets s !! toId = Some D ->
    validate B D amount = true ->
    ExecContext_err env = None ->
    Commit_err env = Some e ->
    SendCase env s fromId (Some (mkSendWalletRequestBody toId amount))
      (Return,
       mkWorld s
         (Some (mkTx (send_statements (Column env) (Sub B amount) fromId
                        (Add D amount) toId amount (Now env) s) TxCommitFailed))
         [LStr "walletResFrom"; LStr "walletResTo"; LStr toId;
          LDec (Sub B amount); LDec (Add D amount); LErr (Some e)]
         (Some (mkResponse StatusInternalServerError NoBody)) 0)
| case_committed toId amount B D :
    BeginTx_err env = None ->
    TxQueryRow_err env SFrom = None ->
    wallets s !! fromId = Some B ->
    TxQueryRow_err env STo = None ->
    wallets s !! toId = Some D ->
    validate B D amount = true ->
    ExecContext_err env = None ->
    Commit_err env = None ->
    SendCase env s fromId (Some (mkSendWalletRequestBody toId amount))
      (Next tt,
       mkWorld
         (send_statements (Column env) (Sub B amount) fromId
            (Add D amount) toId amount (Now env) s)
         (Some (mkTx (send_statements (Column env) (Sub B amount) fromId
                        (Add D amount) toId amount (Now env) s) TxCommitted))
         [LStr "walletResFrom"; LStr "walletResTo"; LStr toId;
          LDec (Sub B amount); LDec (Add D amount)]
         (Some (mkResponse StatusOK NoBody)) 0).

(** ** Facts about decimals *)

Lemma ten_neq_0 : ~ ((10 # 1) == 0)%Q.
Proof. discriminate. Qed.

Lemma ten_pow_pos (e : Z) : (0 < (10 # 1) ^ e)%Q.
Proof. apply Qpower_0_lt. reflexivity. Qed.

Lemma to_Q_lower (v e k : Z) :
  0 <= k -> (to_Q (mkDecimal (v * 10 ^ k) (e - k)) == to_Q (mkDecimal v e))%Q.
Proof.
  intros Hk. unfold to_Q; cbn [value exp].
  rewrite inject_Z_mult, (Zpower_Qpower 10 k Hk).
  pose proof (Qpower_plus (10 # 1) (e - k) k ten_neq_0) as H.
  replace (e - k + k) with e in H by lia. rewrite H.
  change (inject_Z 10) with (10 # 1)%Q. ring.
Qed.

Lemma to_Q_rescale (d : Decimal) (e : Z) :
  e <= exp d -> (to_Q (rescale d e) == to_Q d)%Q.
Proof.
  intros He. unfold rescale.
  destruct (Z.eqb_spec (exp d) e) as [Heq|Hne]; [reflexivity|].
  destruct (Z.ltb_spec (exp d) e) as [Hlt|_]; [lia|].
  pose proof (to_Q_lower (value d) (exp d) (exp d - e)) as H.
  replace (exp d - (exp d - e)) with e in H by lia.
  rewrite H by lia. destruct d; reflexivity.
Qed.

Lemma exp_rescale (d : Decimal) (e : Z) : exp (rescale d e) = e.
Proof.
  unfold rescale. destruct (Z.eqb_spec (exp d) e); [assumption|].
  destruct (exp d <? e); reflexivity.
Qed.

(** After [RescalePair] both operands have the same exponent and stand for
    the numbers they stood for. *)
Lemma RescalePair_spec (d1 d2 : Decimal) :
  let '(r1, r2) := RescalePair d1 d2 in
  exp r1 = exp r2 /\ (to_Q r1 == to_Q d1)%Q /\ (to_Q r2 == to_Q d2)%Q.
Proof.
  unfold RescalePair.
  destruct (Z.ltb_spec (exp d1) (exp d2)) as [H12|H12].
  - rewrite exp_rescale. split; [reflexivity|]. split; [reflexivity|].
    apply to_Q_rescale. lia.
  - destruct (Z.ltb_spec (exp d2) (exp d1)) as [H21|H21].
    + rewrite exp_rescale. split; [reflexivity|]. split; [|reflexivity].
      apply to_Q_rescale. lia.
    + split; [lia|]. split; reflexivity.
Qed.

Lemma to_Q_Add (a b : Decimal) : (to_Q (Add a b) == to_Q a + to_Q b)%Q.
Proof.
  unfold Add. pose proof (RescalePair_spec a b) as H.
  destruct (RescalePair a b) as [r1 r2]. destruct H as (He & H1 & H2).
  rewrite <- H1, <- H2. unfold to_Q; cbn [value exp].
  rewrite inject_Z_plus, <- He. ring.
Qed.

Lemma to_Q_Sub (a b : Decimal) : (to_Q (Sub a b) == to_Q a - to_Q b)%Q.
Proof.
  unfold Sub. pose proof (RescalePair_spec a b) as H.
  destruct (RescalePair a b) as [r1 r2]. destruct H as (He & H1 & H2).
  rewrite <- H1, <- H2. unfold to_Q; cbn [value exp].
  unfold Z.sub. rewrite inject_Z_plus, inject_Z_opp, <- He. ring.
Qed.

Lemma IsPositive_value (d : Decimal) : IsPositive d = true <-> 0 < value d.
Proof.
  unfold IsPositive, Sign. rewrite Z.eqb_eq. lia.
Qed.

(** [IsPositive] is strict positivity of the number. *)
Lemma IsPositive_to_Q (d : Decimal) : IsPositive d = true <-> (0 < to_Q d)%Q.
Proof.
  rewrite IsPositive_value. unfold to_Q.
  pose proof (ten_pow_pos (exp d)) as Hp.
  split; intros H.
  - apply Qmult_lt_0_compat; [|exact Hp].
    change 0%Q with (inject_Z 0). rewrite <- Zlt_Qlt. exact H.
  - destruct (Z.lt_ge_cases 0 (value d)) as [Hv|Hv]; [exact Hv|exfalso].
    apply (Qlt_irrefl 0). eapply Qlt_le_trans; [exact H|].
    rewrite <- (Qmult_0_l ((10 # 1) ^ exp d)).
    apply Qmult_le_compat_r; [|apply Qlt_le_weak; exact Hp].
    change 0%Q with (inject_Z 0). rewrite <- Zle_Qle. exact Hv.
Qed.

Lemma IsPositive_to_Q_false (d : Decimal) :
  IsPositive d = false <-> (to_Q d <= 0)%Q.
Proof.
  pose proof (IsPositive_to_Q d) as H.
  destruct (IsPositive d); split; intros H'; try reflexivity; try discriminate.
  - exfalso. apply (Qlt_irrefl 0). eapply Qlt_le_trans; [|exact H'].
    apply H. reflexivity.
  - destruct (Qlt_le_dec 0 (to_Q d)) as [Hlt|Hle]; [|exact Hle].
    apply H in Hlt. discriminate.
Qed.

(** ** Facts about the store *)

Lemma send_statements_transactions column fromAmount fromId toAmount toId amount now s :
  wallet_transactions
    (send_statements column fromAmount fromId toAmount toId amount now s)
  = wallet_transactions s
      ++ [mkWalletTransaction fromId toId (column amount) (mkNullTime now true)].
Proof. reflexivity. Qed.

Lemma send_statements_wallets column fromAmount fromId toAmount toId amount now s :
  wallets (send_statements column fromAmount fromId toAmount toId amount now s)
  = alter (fun _ => column toAmount) toId
      (alter (fun _ => column fromAmount) fromId (wallets s)).
Proof. reflexivity. Qed.



Lemma send_statements_lookup_other column fromAmount fromId toAmount toId amount now s id :
  id <> fromId -> id <> toId ->
  wallets (send_statements column fromAmount fromId toAmount toId amount now s) !! id
  = wallets s !! id.
Proof.
  intros H1 H2. rewrite send_statements_wallets.
  rewrite !lookup_alter_ne by congruence. reflexivity.
Qed.

(** ** The send handler, case by case *)

Ltac unfold_handlers :=
  unfold serve, send_handler, send_begin, send_join, send_after_from,
    send_after_to, tx_load, db_BeginTx, tx_ExecContext, tx_Commit,
    tx_Rollback, Println, AbortWithStatus, Status, JSON, Return_, log_Fatal,
    get_handler, history_handler, db_QueryRow_Scan, db_Query,
    mbind, M_bind, mret, M_ret, init_world, tx_QueryRow_Scan, select_wallet.

Lemma validate_false_cond sb db a :
  validate sb db a = false ->
  negb (IsPositive (Sub sb a)) || negb (IsPositive (Add db a)) = true.
Proof. unfold validate. cbn. apply negb_false_iff. Qed.

Lemma validate_true_cond sb db a :
  validate sb db a = true ->
  negb (IsPositive (Sub sb a)) || negb (IsPositive (Add db a)) = false.
Proof. unfold validate. cbn. apply negb_true_iff. Qed.

Section SendCases.

Context (env : Env) (s : Store) (fromId toId : string) (amount : Decimal).

Lemma send_unbound :
  serve (send_handler env fromId None) s
  = (Return,
     mkWorld s None [LErr (Some ErrBind)]
       (Some (mkResponse StatusBadRequest (JError ErrBind))) 0).
Proof. reflexivity. Qed.

Lemma send_begin_failed e :
  BeginTx_err env = Some e ->
  serve (send_handler env fromId (Some (mkSendWalletRequestBody toId amount))) s
  = (Panic ErrNilDeref, init_world s).
Proof. intros Hb. unfold_handlers. rewrite Hb. reflexivity. Qed.

(** The source load fails on its own. *)
Lemma send_from_failed e :
  BeginTx_err env = None ->
  TxQueryRow_err env SFrom = Some e ->
  serve (send_handler env fromId (Some (mkSendWalletRequestBody toId amount))) s
  = (Return,
     mkWorld s (Some (mkTx s TxRolledBack))
       [LStr "walletResFrom"; LErr (Some e)]
       (Some (mkResponse StatusNotFound NoBody)) 0).
Proof.
  intros Hb Hf. unfold_handlers. rewrite Hb. cbn. rewrite Hf. reflexivity.
Qed.

Lemma send_from_missing :
  BeginTx_err env = None ->
  TxQueryRow_err env SFrom = None ->
  wallets s !! fromId = None ->
  serve (send_handler env fromId (Some (mkSendWalletRequestBody toId amount))) s
  = (Return,
     mkWorld s (Some (mkTx s TxRolledBack))
       [LStr "walletResFrom"; LErr (Some ErrNoRows)]
       (Some (mkResponse StatusNotFound NoBody)) 0).
Proof.
  intros Hb Hf HB. unfold_handlers. rewrite Hb. cbn. rewrite Hf, HB. reflexivity.
Qed.

(** The destination load fails on its own. *)
Lemma send_to_failed B e :
  BeginTx_err env = None ->
  TxQueryRow_err env SFrom = None ->
  wallets s !! fromId = Some B ->
  TxQueryRow_err env STo = Some e ->
  serve (send_handler env fromId (Some (mkSendWalletRequestBody toId amount))) s
  = (Return,
     mkWorld s (Some (mkTx s TxRolledBack))
       [LStr "walletResFrom"; LStr "walletResTo"; LStr toId; LErr (Some e)]
       (Some (mkResponse StatusBadRequest NoBody)) 0).
Proof.
  intros Hb Hf HB Ht. unfold_handlers. rewrite Hb. cbn. rewrite Hf, HB. cbn.
  rewrite Ht. reflexivity.
Qed.

Lemma send_to_missing B :
  BeginTx_err env = None ->
  TxQueryRow_err env SFrom = None ->
  wallets s !! fromId = Some B ->
  TxQueryRow_err env STo = None ->
  wallets s !! toId = None ->
  serve (send_handler env fromId (Some (mkSendWalletRequestBody toId amount))) s
  = (Return,
     mkWorld s (Some (mkTx s TxRolledBack))
       [LStr "walletResFrom"; LStr "walletResTo"; LStr toId; LErr (Some ErrNoRows)]
       (Some (mkResponse StatusBadRequest NoBody)) 0).
Proof.
  intros Hb Hf HB Ht HD. unfold_handlers. rewrite Hb. cbn. rewrite Hf, HB. cbn.
  rewrite Ht, HD. reflexivity.
Qed.

(** A transfer the validator turns down: the handler answers 400 and
    returns; [tx.Rollback] is not called on this path. *)
Lemma send_rejected B D :
  BeginTx_err env = None ->
  TxQueryRow_err env SFrom = None ->
  wallets s !! fromId = Some B ->
  TxQueryRow_err env STo = None ->
  wallets s !! toId = Some D ->
  validate B D amount = false ->
  serve (send_handler env fromId (Some (mkSendWalletRequestBody toId amount))) s
  = (Return,
     mkWorld s (Some (mkTx s TxOpen))
       [LStr "walletResFrom"; LStr "walletResTo"; LStr toId;
        LDec (Sub B amount); LDec (Add D amount); LErr None]
       (Some (mkResponse StatusBadRequest NoBody)) 0).
Proof.
  intros Hb Hf HB Ht HD Hv. apply validate_false_cond in Hv.
  unfold_handlers. rewrite Hb. cbn. rewrite Hf, HB. cbn. rewrite Ht, HD. cbn.
  rewrite Hv. reflexivity.
Qed.

Lemma send_exec_failed B D e :
  BeginTx_err env = None ->
  TxQueryRow_err env SFrom = None ->
  wallets s !! fromId = Some B ->
  TxQueryRow_err env STo = None ->
  wallets s !! toId = Some D ->
  validate B D amount = true ->
  ExecContext_err env = Some e ->
  serve (send_handler env fromId (Some (mkSendWalletRequestBody toId amount))) s
  = (Return,
     mkWorld s (Some (mkTx s TxRolledBack))
       [LStr "walletResFrom"; LStr "walletResTo"; LStr toId;
        LDec (Sub B amount); LDec (Add D amount); LErr (Some e)]
       (Some (mkResponse StatusInternalServerError NoBody)) 0).
Proof.
  intros Hb Hf HB Ht HD Hv He. apply validate_true_cond in Hv.
  unfold_handlers. rewrite Hb. cbn. rewrite Hf, HB. cbn. rewrite Ht, HD. cbn.
  rewrite Hv. cbn. rewrite He. reflexivity.
Qed.

Lemma send_commit_failed B D e :
  BeginTx_err env = None ->
  TxQueryRow_err env SFrom = None ->
  wallets s !! fromId = Some B ->
  TxQueryRow_err env STo = None ->
  wallets s !! toId = Some D ->
  validate B D amount = true ->
  ExecContext_err env = None ->
  Commit_err env = Some e ->
  let s' := send_statements (Column env) (Sub B amount) fromId (Add D amount) toId
              amount (Now env) s in
  serve (send_handler env fromId (Some (mkSendWalletRequestBody toId amount))) s
  = (Return,
     mkWorld s (Some (mkTx s' TxCommitFailed))
       [LStr "walletResFrom"; LStr "walletResTo"; LStr toId;
        LDec (Sub B amount); LDec (Add D amount); LErr (Some e)]
       (Some (mkResponse StatusInternalServerError NoBody)) 0).
Proof.
  intros Hb Hf HB Ht HD Hv He Hc. apply validate_true_cond in Hv.
  unfold_handlers. rewrite Hb. cbn. rewrite Hf, HB. cbn. rewrite Ht, HD. cbn.
  rewrite Hv. cbn. rewrite He. cbn. rewrite Hc. reflexivity.
Qed.

Lemma send_committed B D :
  BeginTx_err env = None ->
  TxQueryRow_err env SFrom = None ->
  wallets s !! fromId = Some B ->
  TxQueryRow_err env STo = None ->
  wallets s !! toId = Some D ->
  validate B D amount = true ->
  ExecContext_err env = None ->
  Commit_err env = None ->
  let s' := send_statements (Column env) (Sub B amount) fromId (Add D amount) toId
              amount (Now env) s in
  serve (send_handler env fromId (Some (mkSendWalletRequestBody toId amount))) s
  = (Next tt,
     mkWorld s' (Some (mkTx s' TxCommitted))
       [LStr "walletResFrom"; LStr "walletResTo"; LStr toId;
        LDec (Sub B amount); LDec (Add D amount)]
       (Some (mkResponse StatusOK NoBody)) 0).
Proof.
  intros Hb Hf HB Ht HD Hv He Hc. apply validate_true_cond in Hv.
  unfold_handlers. rewrite Hb. cbn. rewrite Hf, HB. cbn. rewrite Ht, HD. cbn.
  rewrite Hv. cbn. rewrite He. cbn. rewrite Hc. reflexivity.
Qed.

End SendCases.

Lemma send_cases env s fromId requestBody :
  SendCase env s fromId requestBody (serve (send_handler env fromId requestBody) s).
Proof.
  destruct requestBody as [[toId amount]|]; [|apply case_unbound].
  destruct (BeginTx_err env) as [e|] eqn:Hb.
  { rewrite (send_begin_failed _ _ _ _ _ _ Hb). eapply case_begin_failed; eassumption. }
  destruct (TxQueryRow_err env SFrom) as [e|] eqn:Hf.
  { rewrite (send_from_failed _ _ _ _ _ _ Hb Hf). apply case_from_failed; assumption. }
  destruct (wallets s !! fromId) as [B|] eqn:HB.
  2:{ rewrite (send_from_missing _ _ _ _ _ Hb Hf HB). apply case_from_missing; assumption. }
  destruct (TxQueryRow_err env STo) as [e|] eqn:Ht.
  { rewrite (send_to_failed _ _ _ _ _ _ _ Hb Hf HB Ht). eapply case_to_failed; eassumption. }
  destruct (wallets s !! toId) as [D|] eqn:HD.
  2:{ rewrite (send_to_missing _ _ _ _ _ _ Hb Hf HB Ht HD).
      eapply case_to_missing; eassumption. }
  destruct (validate B D amount) eqn:Hv.
  2:{ rewrite (send_rejected _ _ _ _ _ _ _ Hb Hf HB Ht HD Hv).
      eapply case_rejected; eassumption. }
  destruct (ExecContext_err env) as [e|] eqn:He.
  { rewrite (send_exec_failed _ _ _ _ _ _ _ _ Hb Hf HB Ht HD Hv He).
    eapply case_exec_failed; eassumption. }
  destruct (Commit_err env) as [e|] eqn:Hc.
  { rewrite (send_commit_failed _ _ _ _ _ _ _ _ Hb Hf HB Ht HD Hv He Hc).
    eapply case_commit_failed; eassumption. }
  rewrite (send_committed _ _ _ _ _ _ _ Hb Hf HB Ht HD Hv He Hc).
  eapply case_committed; eassumption.
Qed.

(** Atomicity: the committed store after a send is the old one with all
    three statements applied when the answer is 200, and the old one
    otherwise. *)
Lemma send_outcome env s fromId (requestBody : option SendWalletRequestBody) :
  let o := serve (send_handler env fromId requestBody) s in
  (http_status o = Some StatusOK /\
   exists body B D,
     requestBody = Some body /\
     wallets s !! fromId = Some B /\ wallets s !! ID body = Some D /\
     validate B D (Amount body) = true /\
     tx_status_of o.2 = Some TxCommitted /\
     db o.2 = send_statements (Column env) (Sub B (Amount body)) fromId
                (Add D (Amount body)) (ID body) (Amount body) (Now env) s)
  \/ (http_status o <> Some StatusOK /\ db o.2 = s).
Proof.
  cbv zeta. destruct (send_cases env s fromId requestBody);
    try (right; split; [discriminate|reflexivity]).
  left. split; [reflexivity|].
  exists (mkSendWalletRequestBody toId amount), B, D. cbn.
  repeat split; first [reflexivity | assumption].
Qed.

(** ** The validator *)

Lemma validate_spec sb db a :
  validate sb db a = true <->
  (0 < to_Q sb - to_Q a)%Q /\ (0 < to_Q db + to_Q a)%Q.
Proof.
  unfold validate. cbv zeta.
  rewrite negb_true_iff, orb_false_iff, !negb_false_iff, !IsPositive_to_Q.
  rewrite to_Q_Sub, to_Q_Add. reflexivity.
Qed.

(** C2: the validator approves exactly when both [sourceBalance - amount]
    and [destinationBalance + amount] are strictly positive; a transfer that
    would leave either balance at exactly zero is rejected.  It is the
    condition the send handler branches on: once both wallets are loaded,
    the handler answers 400 and writes nothing when the validator rejects,
    goes on to write and answers 200 when it approves and the store does
    not fail, and never answers 200 when it rejects. *)
Theorem validate_strictly_positive (sourceBalance destinationBalance amount : Decimal) :
  (validate sourceBalance destinationBalance amount = true <->
   (0 < to_Q sourceBalance - to_Q amount)%Q /\
   (0 < to_Q destinationBalance + to_Q amount)%Q) /\
  ((to_Q sourceBalance - to_Q amount == 0)%Q \/
   (to_Q destinationBalance + to_Q amount == 0)%Q ->
   validate sourceBalance destinationBalance amount = false) /\
  (forall env s fromId toId,
     BeginTx_err env = None ->
     TxQueryRow_err env SFrom = None ->
     TxQueryRow_err env STo = None ->
     wallets s !! fromId = Some sourceBalance ->
     wallets s !! toId = Some destinationBalance ->
     let o := serve (send_handler env fromId
                       (Some (mkSendWalletRequestBody toId amount))) s in
     (validate sourceBalance destinationBalance amount = false ->
      http_status o = Some StatusBadRequest /\ db o.2 = s) /\
     (validate sourceBalance destinationBalance amount = true ->
      ExecContext_err env = None -> Commit_err env = None ->
      http_status o = Some StatusOK /\
      db o.2 = send_statements (Column env) (Sub sourceBalance amount) fromId
                 (Add destinationBalance amount) toId amount (Now env) s) /\
     (http_status o = Some StatusOK ->
      validate sourceBalance destinationBalance amount = true)).
Proof.
  split; [apply validate_spec|]. split.
  - intros Hz. apply not_true_is_false. intros Hv.
    apply validate_spec in Hv. destruct Hv as [H1 H2].
    destruct Hz as [Hz|Hz]; rewrite Hz in *;
      [exact (Qlt_irrefl 0 H1) | exact (Qlt_irrefl 0 H2)].
  - intros env s fromId toId Hb Hf Ht HB HD. cbv zeta.
    split; [|split].
    + intros Hv. rewrite (send_rejected _ _ _ _ _ _ _ Hb Hf HB Ht HD Hv).
      split; reflexivity.
    + intros Hv He Hc. rewrite (send_committed _ _ _ _ _ _ _ Hb Hf HB Ht HD Hv He Hc).
      split; reflexivity.
    + destruct (validate sourceBalance destinationBalance amount) eqn:Hv;
        [reflexivity|].
      rewrite (send_rejected _ _ _ _ _ _ _ Hb Hf HB Ht HD Hv). discriminate.
Qed.

Lemma validate_strictly_positive_witness :
  validate (NewFromInt 100) (NewFromInt 100) (NewFromInt 30) = true /\
  validate (NewFromInt 100) (NewFromInt 100) (NewFromInt 100) = false /\
  http_status (serve (send_handler plain_env "X"
                        (Some (mkSendWalletRequestBody "Y" (NewFromInt 100)))) two_wallets)
  = Some StatusBadRequest.
Proof.
  split; [|split].
  - apply (proj1 (validate_strictly_positive (NewFromInt 100) (NewFromInt 100) (NewFromInt 30))).
    split; reflexivity.
  - apply (proj1 (proj2 (validate_strictly_positive (NewFromInt 100) (NewFromInt 100)
                           (NewFromInt 100)))).
    left. reflexivity.
  - apply (proj2 (proj2 (validate_strictly_positive (NewFromInt 100) (NewFromInt 100)
                           (NewFromInt 100))) plain_env two_wallets "X" "Y");
      reflexivity.
Defined.

(** ** Transfers *)

Lemma plain_env_faultless : faultless plain_env.
Proof. repeat split. Qed.




(** C3, as the code runs it: a transfer of 1000 between two wallets of 100
    is turned down with 400 and the store is as before, but the handler
    returns with the transaction it opened still open.  Every other failing
    path of the handler calls [tx.Rollback] first ([send_from_missing],
    [send_to_missing], [send_exec_failed]); this one does not
    ([send_rejected]). *)
Theorem rejected_transfer_leaves_tx_open :
  let o := serve (send_handler plain_env "X"
                    (Some (mkSendWalletRequestBody "Y" (NewFromInt 1000)))) two_wallets in
  validate (NewFromInt 100) (NewFromInt 100) (NewFromInt 1000) = false /\
  http_status o = Some StatusBadRequest /\
  db o.2 = two_wallets /\
  tx_status_of o.2 = Some TxOpen /\
  tx_status_of o.2 <> Some TxRolledBack.
Proof.
  cbv zeta.
  rewrite (send_rejected plain_env two_wallets "X" "Y" (NewFromInt 1000)
             (NewFromInt 100) (NewFromInt 100)); try reflexivity.
  repeat split; try reflexivity. discriminate.
Qed.

(** What does hold of every rejected transfer: the answer is 400 and neither
    a balance nor the log of transactions changes. *)
Lemma rejected_transfer_keeps_store env s fromId toId (A B D : Decimal) :
  BeginTx_err env = None ->
  TxQueryRow_err env SFrom = None ->
  TxQueryRow_err env STo = None ->
  wallets s !! fromId = Some B ->
  wallets s !! toId = Some D ->
  (to_Q B - to_Q A <= 0)%Q \/ (to_Q D + to_Q A <= 0)%Q ->
  let o := serve (send_handler env fromId (Some (mkSendWalletRequestBody toId A))) s in
  http_status o = Some StatusBadRequest /\ db o.2 = s /\
  tx_status_of o.2 = Some TxOpen.
Proof.
  intros Hb Hf Ht HB HD Hle.
  assert (Hv : validate B D A = false).
  { apply not_true_is_false. intros Hv. apply validate_spec in Hv.
    destruct Hv as [H1 H2]. destruct Hle as [Hle|Hle].
    - exact (Qlt_irrefl 0 (Qlt_le_trans _ _ _ H1 Hle)).
    - exact (Qlt_irrefl 0 (Qlt_le_trans _ _ _ H2 Hle)). }
  cbv zeta. rewrite (send_rejected _ _ _ _ _ _ _ Hb Hf HB Ht HD Hv).
  repeat split.
Qed.







(** ** Reading *)

(** The loop over the rows ends in one of two ways: with the rows up to the
    first one that could not be fetched, or at the first row that could not
    be scanned. *)
Lemma history_rows_cases env (response : list WalletTransaction) i rows w :
  (exists k, (k <= length response)%nat /\
     (forall j, (j < k)%nat ->
        Next_err env (i + j) = None /\ Scan_err env (i + j) = None) /\
     ((k < length response)%nat -> is_Some (Next_err env (i + k))) /\
     history_rows env i response rows w
     = (Next (rows ++ (to_DTO env <$> take k response)), w)) \/
  (exists k e, (k < length response)%nat /\
     (forall j, (j < k)%nat ->
        Next_err env (i + j) = None /\ Scan_err env (i + j) = None) /\
     Next_err env (i + k) = None /\ Scan_err env (i + k) = Some e /\
     history_rows env i response rows w
     = (Return,
        set_response (Some (mkResponse StatusNotFound NoBody))
          (set_log (log w ++ [LErr (Some e)]) w))).
Proof.
  revert i rows. induction response as [|row response IH]; intros i rows.
  - left. exists 0%nat. cbn. rewrite app_nil_r.
    split; [lia|]. split; [intros j Hj; lia|]. split; [lia|reflexivity].
  - cbn [history_rows length].
    destruct (Next_err env i) as [e|] eqn:Hn.
    { left. exists 0%nat. cbn [take fmap list_fmap]. rewrite app_nil_r, Nat.add_0_r.
      split; [lia|]. split; [intros j Hj; lia|].
      split; [intros _; rewrite Hn; eexists; reflexivity|reflexivity]. }
    destruct (Scan_err env i) as [e|] eqn:Hs.
    { right. exists 0%nat, e. rewrite Nat.add_0_r.
      split; [lia|]. split; [intros j Hj; lia|].
      split; [exact Hn|]. split; [exact Hs|reflexivity]. }
    destruct (IH (S i) (rows ++ [to_DTO env row]))
      as [(k & Hk & Hbefore & Hcut & Hrun)|(k & e & Hk & Hbefore & Hn' & Hs' & Hrun)].
    + left. exists (S k). split; [lia|]. split; [|split].
      * intros [|j] Hj; [rewrite Nat.add_0_r; split; assumption|].
        replace (i + S j)%nat with (S i + j)%nat by lia. apply Hbefore. lia.
      * intros Hlt. replace (i + S k)%nat with (S i + k)%nat by lia.
        apply Hcut. lia.
      * rewrite Hrun. cbn [take fmap list_fmap]. rewrite <- app_assoc. reflexivity.
    + right. exists (S k), e. split; [lia|]. split; [|split; [|split]].
      * intros [|j] Hj; [rewrite Nat.add_0_r; split; assumption|].
        replace (i + S j)%nat with (S i + j)%nat by lia. apply Hbefore. lia.
      * replace (i + S k)%nat with (S i + k)%nat by lia. exact Hn'.
      * replace (i + S k)%nat with (S i + k)%nat by lia. exact Hs'.
      * exact Hrun.
Qed.

(** With every row fetched and scanned, all of them are returned. *)
Lemma history_rows_scan env (response : list WalletTransaction) i rows w :
  (forall j, (j < length response)%nat ->
     Next_err env (i + j) = None /\ Scan_err env (i + j) = None) ->
  history_rows env i response rows w = (Next (rows ++ (to_DTO env <$> response)), w).
Proof.
  revert i rows. induction response as [|row response IH]; intros i rows Hok.
  - cbn. rewrite app_nil_r. reflexivity.
  - cbn [history_rows]. destruct (Hok 0%nat ltac:(cbn; lia)) as [Hn Hs].
    rewrite Nat.add_0_r in Hn, Hs. rewrite Hn, Hs, IH, <- app_assoc; [reflexivity|].
    intros j Hj. replace (S i + j)%nat with (i + S j)%nat by lia.
    apply Hok. cbn. lia.
Qed.

(** The JSON form of a row spelled out. *)
Lemma to_DTO_fields env (row : WalletTransaction) :
  to_DTO env row
  = mkWalletTransactionDTO (wt_AuthorId row) (wt_SenderId row) (wt_Balance row)
      (RFC3339 env (Time (wt_Date row))).
Proof. reflexivity. Qed.

Lemma history_lookup_failed env s id e :
  QueryRow_err env = Some e ->
  serve (history_handler env id) s
  = (Return,
     mkWorld s None [LErr (Some e)] (Some (mkResponse StatusNotFound NoBody)) 0).
Proof. intros Hq. unfold_handlers. rewrite Hq. reflexivity. Qed.

Lemma history_missing env s id :
  QueryRow_err env = None ->
  wallets s !! id = None ->
  serve (history_handler env id) s
  = (Return,
     mkWorld s None [LErr (Some ErrNoRows)]
       (Some (mkResponse StatusNotFound NoBody)) 0).
Proof.
  intros Hq HB. unfold_handlers. rewrite Hq. cbn. rewrite HB. reflexivity.
Qed.

Lemma history_query_failed env s id B e :
  QueryRow_err env = None ->
  wallets s !! id = Some B ->
  Query_err env = Some e ->
  serve (history_handler env id) s
  = (Return,
     mkWorld s None [LErr (Some e)] (Some (mkResponse StatusNotFound NoBody)) 0).
Proof.
  intros Hq HB Hr. unfold_handlers. rewrite Hq. cbn. rewrite HB. cbn.
  rewrite Hr. reflexivity.
Qed.

(** Past the lookup and the query the handler is the loop over the rows. *)
Lemma history_rows_reached env s id B :
  QueryRow_err env = None ->
  wallets s !! id = Some B ->
  Query_err env = None ->
  serve (history_handler env id) s
  = match history_rows env 0 (select_transactions s id) [] (init_world s) with
    | (Next rows, w) => (Next tt, set_response (Some (mkResponse StatusOK (JRows rows))) w)
    | (Return, w) => (Return, w)
    | (Panic e, w) => (Panic e, w)
    | (Fatal e, w) => (Fatal e, w)
    | (Spin, w) => (Spin, w)
    end.
Proof.
  intros Hq HB Hr. unfold_handlers. rewrite Hq. cbn. rewrite HB. cbn.
  rewrite Hr. cbn.
  destruct (history_rows env 0 (select_transactions s id) [] (init_world s))
    as [[rows| | | |] w]; reflexivity.
Qed.

Lemma history_found env s id B :
  QueryRow_err env = None ->
  Query_err env = None ->
  (forall j, (j < length (select_transactions s id))%nat ->
     Next_err env j = None /\ Scan_err env j = None) ->
  wallets s !! id = Some B ->
  serve (history_handler env id) s
  = (Next tt,
     mkWorld s None []
       (Some (mkResponse StatusOK (JRows (to_DTO env <$> select_transactions s id)))) 0).
Proof.
  intros Hq Hr Hrows HB.
  rewrite (history_rows_reached env s id B Hq HB Hr).
  rewrite history_rows_scan by exact Hrows. reflexivity.
Qed.

(** The outcome of the history handler, for every environment. *)
Lemma history_cases env s id :
  let o := serve (history_handler env id) s in
  let sel := select_transactions s id in
  (exists e,
     o = (Return,
          mkWorld s None [LErr (Some e)] (Some (mkResponse StatusNotFound NoBody)) 0) /\
     (QueryRow_err env = Some e \/
      QueryRow_err env = None /\ wallets s !! id = None /\ e = ErrNoRows \/
      QueryRow_err env = None /\ is_Some (wallets s !! id) /\ Query_err env = Some e \/
      QueryRow_err env = None /\ is_Some (wallets s !! id) /\ Query_err env = None /\
      exists k, (k < length sel)%nat /\
        (forall j, (j < k)%nat -> Next_err env j = None /\ Scan_err env j = None) /\
        Next_err env k = None /\ Scan_err env k = Some e)) \/
  (exists k,
     o = (Next tt,
          mkWorld s None []
            (Some (mkResponse StatusOK (JRows (to_DTO env <$> take k sel)))) 0) /\
     QueryRow_err env = None /\ is_Some (wallets s !! id) /\ Query_err env = None /\
     (k <= length sel)%nat /\
     (forall j, (j < k)%nat -> Next_err env j = None /\ Scan_err env j = None) /\
     ((k < length sel)%nat -> is_Some (Next_err env k))).
Proof.
  cbv zeta.
  destruct (QueryRow_err env) as [e|] eqn:Hq.
  { left. exists e. rewrite (history_lookup_failed env s id e Hq).
    split; [reflexivity|]. left. reflexivity. }
  destruct (wallets s !! id) as [B|] eqn:HB.
  2:{ left. exists ErrNoRows. rewrite (history_missing env s id Hq HB).
      split; [reflexivity|]. right. left. repeat split. }
  destruct (Query_err env) as [e|] eqn:Hr.
  { left. exists e. rewrite (history_query_failed env s id B e Hq HB Hr).
    split; [reflexivity|]. right. right. left.
    repeat split. eexists; reflexivity. }
  rewrite (history_rows_reached env s id B Hq HB Hr).
  destruct (history_rows_cases env (select_transactions s id) 0 [] (init_world s))
    as [(k & Hk & Hbefore & Hcut & Hrun)|(k & e & Hk & Hbefore & Hn & Hs & Hrun)];
    rewrite Hrun.
  - right. exists k. split; [reflexivity|].
    split; [reflexivity|]. split; [eexists; reflexivity|]. split; [reflexivity|].
    split; [exact Hk|]. split; [exact Hbefore|exact Hcut].
  - left. exists e. split; [reflexivity|]. right. right. right.
    split; [reflexivity|]. split; [eexists; reflexivity|]. split; [reflexivity|].
    exists k. split; [exact Hk|]. split; [exact Hbefore|]. split; assumption.
Qed.

(** When the handler answers 404, and only then. *)
Lemma history_not_found_iff env s id :
  http_status (serve (history_handler env id) s) = Some StatusNotFound <->
  wallets s !! id = None \/ is_Some (QueryRow_err env) \/ is_Some (Query_err env) \/
  exists k, (k < length (select_transactions s id))%nat /\
    (forall j, (j < k)%nat -> Next_err env j = None /\ Scan_err env j = None) /\
    Next_err env k = None /\ is_Some (Scan_err env k).
Proof.
  destruct (history_cases env s id)
    as [(e & -> & Hwhy)|(k & -> & Hq & HB & Hr & Hk & Hbefore & Hcut)].
  - split; [intros _|reflexivity].
    destruct Hwhy as [Hq|[(_ & HB & _)|[(_ & _ & Hr)|(_ & _ & _ & k & Hk & Hb & Hn & Hs)]]].
    + right. left. rewrite Hq. eexists; reflexivity.
    + left. exact HB.
    + right. right. left. rewrite Hr. eexists; reflexivity.
    + right. right. right. exists k. rewrite Hs.
      repeat split; [exact Hk|apply Hb; assumption|apply Hb; assumption|exact Hn|].
      eexists; reflexivity.
  - split; [discriminate|].
    intros [H|[[e H]|[[e H]|(k' & Hk' & Hb' & Hn' & [e Hs'])]]].
    + rewrite H in HB. destruct HB; discriminate.
    + congruence.
    + congruence.
    + exfalso. destruct (Nat.lt_trichotomy k k') as [Hlt|[->|Hgt]].
      * destruct (Hcut ltac:(lia)) as [e' He']. destruct (Hb' k Hlt). congruence.
      * destruct (Hcut Hk') as [e' He']. congruence.
      * destruct (Hbefore k' Hgt). congruence.
Qed.

Lemma select_transactions_spec s id t :
  t ∈ select_transactions s id <->
  t ∈ wallet_transactions s /\ (wt_AuthorId t = id \/ wt_SenderId t = id).
Proof. unfold select_transactions. rewrite list_elem_of_filter. tauto. Qed.

Lemma select_transactions_none s id :
  (forall t, t ∈ wallet_transactions s -> wt_AuthorId t <> id /\ wt_SenderId t <> id) ->
  select_transactions s id = [].
Proof.
  intros Hno. apply elem_of_nil_inv. intros t Ht. apply select_transactions_spec in Ht.
  destruct Ht as [Hin Hid]. destruct (Hno t Hin) as [H1 H2].
  destruct Hid; contradiction.
Qed.

(** C7 fails on the code as it is worded: NotFound is also the answer for a
    wallet that exists when the store fails to answer.  When the lookup of
    the wallet fails, when the query of the records fails, and when the
    first record cannot be scanned, the history of the wallet "Y" of
    [after_transfer] is answered 404. *)
Lemma history_store_failure :
  is_Some (wallets after_transfer !! "Y") /\
  http_status (serve (history_handler query_failing_env "Y") after_transfer)
  = Some StatusNotFound /\
  http_status (serve (history_handler records_failing_env "Y") after_transfer)
  = Some StatusNotFound /\
  http_status (serve (history_handler scan_failing_env "Y") after_transfer)
  = Some StatusNotFound.
Proof. split; [eexists; reflexivity|]. repeat split. Qed.

(** C7, amended: the history reader answers 404 exactly when the id has no
    wallet row or a call to the store fails: the lookup of the wallet, the
    query of the records, or the scan of a record the loop comes to.  So on
    a store that answers, it is 404 exactly when the wallet does not exist.
    Otherwise it answers 200, and when every record could be fetched, with
    all the records that name the id as author or as sender, each as
    [{from, to, amount, time}] with the time printed in RFC 3339, in the
    order of the table; that is the empty sequence, not an error, when
    there is none.  The store is left as it was. *)
Theorem history_reader env s id :
  let o := serve (history_handler env id) s in
  let sel := select_transactions s id in
  let dto := fun t => mkWalletTransactionDTO (wt_AuthorId t) (wt_SenderId t)
                        (wt_Balance t) (RFC3339 env (Time (wt_Date t))) in
  (http_status o = Some StatusNotFound <->
   wallets s !! id = None \/ is_Some (QueryRow_err env) \/ is_Some (Query_err env) \/
   exists k, (k < length sel)%nat /\
     (forall j, (j < k)%nat -> Next_err env j = None /\ Scan_err env j = None) /\
     Next_err env k = None /\ is_Some (Scan_err env k)) /\
  (faultless env ->
   (http_status o = Some StatusNotFound <-> wallets s !! id = None)) /\
  (http_status o <> Some StatusNotFound -> http_status o = Some StatusOK) /\
  (http_status o <> Some StatusNotFound ->
   (forall j, (j < length sel)%nat -> Next_err env j = None) ->
   o = (Next tt,
        mkWorld s None [] (Some (mkResponse StatusOK (JRows (dto <$> sel)))) 0)) /\
  (forall t, t ∈ sel <->
             t ∈ wallet_transactions s /\ (wt_AuthorId t = id \/ wt_SenderId t = id)) /\
  (is_Some (wallets s !! id) -> QueryRow_err env = None -> Query_err env = None ->
   (forall t, t ∈ wallet_transactions s -> wt_AuthorId t <> id /\ wt_SenderId t <> id) ->
   o = (Next tt, mkWorld s None [] (Some (mkResponse StatusOK (JRows []))) 0)) /\
  db o.2 = s.
Proof.
  cbv zeta. pose proof (history_not_found_iff env s id) as Hiff.
  split; [exact Hiff|]. split.
  { intros (_ & _ & _ & Hq & Hr & Hn & Hs & _). rewrite Hiff. split; [|tauto].
    intros [H|[[e H]|[[e H]|(k & _ & _ & _ & [e H])]]];
      [exact H|congruence|congruence|rewrite Hs in H; discriminate]. }
  destruct (history_cases env s id)
    as [(e & Ho & Hwhy)|(k & Ho & Hq & HB & Hr & Hk & Hbefore & Hcut)];
    rewrite Ho in *; clear Ho.
  - split; [intros H; exfalso; apply H; reflexivity|].
    split; [intros H; exfalso; apply H; reflexivity|].
    split; [apply select_transactions_spec|]. split; [|reflexivity].
    intros HB Hq Hr Hno. exfalso.
    apply select_transactions_none in Hno.
    destruct Hwhy as [Hq'|[(_ & HB' & _)|[(_ & _ & Hr')|(_ & _ & _ & k & Hk & _)]]].
    + congruence.
    + rewrite HB' in HB. destruct HB; discriminate.
    + congruence.
    + rewrite Hno in Hk. cbn in Hk. lia.
  - split; [reflexivity|].
    split.
    { intros _ Hn. destruct (decide (k < length (select_transactions s id))%nat) as [Hlt|Hge].
      - destruct (Hcut Hlt) as [e He]. rewrite (Hn k Hlt) in He. discriminate.
      - rewrite take_ge by lia. reflexivity. }
    split; [apply select_transactions_spec|]. split; [|reflexivity].
    intros _ _ _ Hno. apply select_transactions_none in Hno.
    rewrite Hno. rewrite take_nil. reflexivity.
Qed.

Lemma history_reader_witness :
  serve (history_handler plain_env "Y") after_transfer
  = (Next tt,
     mkWorld after_transfer None []
       (Some (mkResponse StatusOK
                (JRows [mkWalletTransactionDTO "X" "Y" (NewFromInt 30)
                          "2023-11-14T22:13:20Z"]))) 0) /\
  http_status (serve (history_handler plain_env "Q") after_transfer)
  = Some StatusNotFound /\
  http_status (serve (history_handler scan_failing_env "Y") after_transfer)
  = Some StatusNotFound.
Proof.
  split; [|split].
  - apply (proj1 (proj2 (proj2 (proj2 (history_reader plain_env after_transfer "Y"))))).
    + discriminate.
    + reflexivity.
  - apply (proj2 (proj1 (proj2 (history_reader plain_env after_transfer "Q"))
                    plain_env_faultless)).
    reflexivity.
  - apply (proj2 (proj1 (history_reader scan_failing_env after_transfer "Y"))).
    right. right. right. exists 0%nat.
    split; [vm_compute; lia|]. split; [intros j Hj; lia|].
    split; [reflexivity|eexists; reflexivity].
Defined.

(** C9: GET wallet only reads: it leaves the store as it was, and asking
    again with no transfer in between gives the same answer, which for a
    wallet that exists is its id and stored balance. *)
Theorem get_wallet_read_only env s id :
  let o1 := serve (get_handler env id) s in
  let o2 := serve (get_handler env id) (db o1.2) in
  db o1.2 = s /\ db o2.2 = s /\ o2 = o1 /\
  (forall B, QueryRow_err env = None -> wallets s !! id = Some B ->
     o1 = (Next tt, mkWorld s None [] (Some (mkResponse StatusOK (JWallet id B))) 0)).
Proof.
  cbv zeta.
  assert (Hdb : db (serve (get_handler env id) s).2 = s).
  { unfold_handlers. destruct (QueryRow_err env); [reflexivity|].
    cbn. destruct (wallets s !! id); reflexivity. }
  rewrite Hdb. split; [reflexivity|]. split; [exact Hdb|].
  split; [reflexivity|].
  intros B Hq HB. unfold_handlers. rewrite Hq. cbn. rewrite HB. reflexivity.
Qed.

Lemma get_wallet_read_only_witness :
  serve (get_handler plain_env "X") two_wallets
  = (Next tt,
     mkWorld two_wallets None []
       (Some (mkResponse StatusOK (JWallet "X" (NewFromInt 100)))) 0).
Proof.
  apply (proj2 (proj2 (proj2 (get_wallet_read_only plain_env two_wallets "X")))).
  - reflexivity.
  - reflexivity.
Defined.

(** ** Wallet ids *)

Lemma String_get_elem (s : string) (n : nat) (c : ascii) :
  String.get n s = Some c -> c ∈ list_ascii_of_string s.
Proof.
  revert n. induction s as [|a s IH]; intros n H; [discriminate|].
  destruct n as [|n]; cbn in H |- *.
  - injection H as ->. apply list_elem_of_here.
  - apply list_elem_of_further. exact (IH n H).
Qed.

Lemma String_get_lt (s : string) (n : nat) :
  (n < String.length s)%nat -> is_Some (String.get n s).
Proof.
  revert n. induction s as [|a s IH]; intros n H; cbn in H; [lia|].
  destruct n as [|n]; cbn; [eexists; reflexivity|]. apply IH. lia.
Qed.

Lemma length_string_of_list_ascii (l : list ascii) :
  String.length (string_of_list_ascii l) = length l.
Proof. induction l as [|a l IH]; cbn; [reflexivity|]. rewrite IH. reflexivity. Qed.

Lemma letters_length : String.length letters = 63%nat.
Proof. reflexivity. Qed.

(** The alphabet: the ten digits, the 26 capitals, the 26 small letters and
    the hyphen, each once. *)
Lemma letters_spelled :
  letters = ("0123456789" ++ "ABCDEFGHIJKLMNOPQRSTUVWXYZ"
             ++ "abcdefghijklmnopqrstuvwxyz" ++ "-")%string.
Proof. reflexivity. Qed.

Lemma letters_NoDup : NoDup (list_ascii_of_string letters).
Proof. apply (bool_decide_unpack _). vm_compute. exact I. Qed.

(** *** [rand.Int] *)

(** For the 63 letters one byte is drawn at a time and its low six bits are
    kept. *)
Lemma rand_Int_letters env w :
  rand_Int env (N.of_nat (String.length letters)) w
  = let '(f, pos) := rand_Int_loop env (rand_fuel env) 63 1 6 (rand_pos w) in
    (f, set_rand_pos pos w).
Proof. reflexivity. Qed.

(** What the loop gives is below [max], the reader's error, or nothing yet. *)
Lemma rand_Int_loop_result env (fuel : nat) (max : N) (k : nat) (b : N) (pos : nat) :
  exists pos',
    (exists n, rand_Int_loop env fuel max k b pos = (Next (inl n), pos') /\ (n < max)%N) \/
    rand_Int_loop env fuel max k b pos = (Next (inr ErrRand), pos') \/
    rand_Int_loop env fuel max k b pos = (Spin, pos').
Proof.
  revert pos. induction fuel as [|fuel IH]; intros pos.
  - eexists. right. right. reflexivity.
  - cbn [rand_Int_loop]. destruct (rand_fill env k pos) as [bytes|].
    + cbv zeta. destruct (N.ltb_spec (SetBytes (mask_first b bytes)) max) as [Hlt|_].
      * eexists. left. eexists. split; [reflexivity|exact Hlt].
      * apply IH.
    + eexists. right. left. reflexivity.
Qed.

Lemma rand_Int_result env (max : N) w :
  exists w',
    w' = set_rand_pos (rand_pos w') w /\
    ((exists n, rand_Int env max w = (Next (inl n), w') /\ (n < max)%N) \/
     rand_Int env max w = (Next (inr ErrRand), w') \/
     rand_Int env max w = (Spin, w') \/
     (max = 0%N /\ rand_Int env max w = (Panic ErrRandArg, w'))).
Proof.
  unfold rand_Int. destruct (N.eqb_spec max 0) as [->|Hmax].
  { exists w. split; [destruct w; reflexivity|]. right. right. right.
    split; reflexivity. }
  cbv zeta. destruct (N.eqb_spec (N.size (max - 1)) 0) as [Hs|Hs].
  { exists w. split; [destruct w; reflexivity|]. left. exists 0%N.
    split; [reflexivity|lia]. }
  match goal with |- context [rand_Int_loop env ?f ?m ?k ?b ?p] =>
    destruct (rand_Int_loop_result env f m k b p) as [pos' H] end.
  exists (set_rand_pos pos' w). split; [destruct w; reflexivity|].
  destruct H as [(n & -> & Hn)|[->| ->]].
  - left. exists n. split; [reflexivity|exact Hn].
  - right. left. reflexivity.
  - right. right. left. reflexivity.
Qed.

(** *** [GenerateRandomString] *)

(** The generator touches nothing of the world but the random source. *)
Lemma GenerateRandomString_loop_frame env (k i : nat) (ret : list ascii) w f w' :
  GenerateRandomString_loop env k i ret w = (f, w') ->
  w' = set_rand_pos (rand_pos w') w.
Proof.
  revert i ret w. induction k as [|k IH]; intros i ret w Hrun.
  - cbn in Hrun. injection Hrun as _ <-. destruct w; reflexivity.
  - cbn [GenerateRandomString_loop] in Hrun. unfold mbind, M_bind in Hrun.
    destruct (rand_Int_result env (N.of_nat (String.length letters)) w)
      as (w1 & Hw1 & [(n & Hr & _)|[Hr|[Hr|[_ Hr]]]]); rewrite Hr in Hrun.
    + destruct (String.get _ letters) as [c|].
      * apply IH in Hrun. rewrite Hrun, Hw1. destruct w; reflexivity.
      * unfold panic in Hrun. injection Hrun as _ <-. exact Hw1.
    + cbn in Hrun. injection Hrun as _ <-. exact Hw1.
    + injection Hrun as _ <-. exact Hw1.
    + injection Hrun as _ <-. exact Hw1.
Qed.

Lemma GenerateRandomString_frame env (n : Z) w f w' :
  GenerateRandomString env n w = (f, w') ->
  w' = set_rand_pos (rand_pos w') w.
Proof.
  unfold GenerateRandomString. destruct (n <? 0).
  - unfold panic. intros H. injection H as _ <-. destruct w; reflexivity.
  - apply GenerateRandomString_loop_frame.
Qed.

(** What the loop keeps: [ret] has its final length, and the slots filled so
    far hold symbols of the alphabet. *)
Lemma GenerateRandomString_loop_shape env (k i : nat) (ret : list ascii) w id w' :
  GenerateRandomString_loop env k i ret w = (Next (id, None), w') ->
  length ret = (i + k)%nat ->
  (forall j c, (j < i)%nat -> ret !! j = Some c -> c ∈ list_ascii_of_string letters) ->
  String.length id = (i + k)%nat /\
  Forall (fun c => c ∈ list_ascii_of_string letters) (list_ascii_of_string id).
Proof.
  revert i ret w. induction k as [|k IH]; intros i ret w Hrun Hlen Hfilled.
  - cbn in Hrun. injection Hrun as <- _.
    rewrite length_string_of_list_ascii, list_ascii_of_string_of_list_ascii.
    split; [exact Hlen|]. apply Forall_lookup. intros j c Hj.
    apply (Hfilled j c); [|exact Hj].
    apply lookup_lt_Some in Hj. lia.
  - cbn [GenerateRandomString_loop] in Hrun. unfold mbind, M_bind in Hrun.
    destruct (rand_Int_result env (N.of_nat (String.length letters)) w)
      as (w1 & _ & [(n & Hr & _)|[Hr|[Hr|[_ Hr]]]]); rewrite Hr in Hrun;
      try discriminate.
    destruct (String.get _ letters) as [c|] eqn:Hget; [|discriminate].
    apply IH in Hrun.
    + replace (i + S k)%nat with (S i + k)%nat by lia. exact Hrun.
    + rewrite length_insert. lia.
    + intros j c' Hj Hc'. destruct (decide (j = i)) as [->|Hne].
      * rewrite list_lookup_insert_eq in Hc' by lia.
        injection Hc' as <-. exact (String_get_elem _ _ _ Hget).
      * rewrite list_lookup_insert_ne in Hc' by congruence.
        apply (Hfilled j c'); [lia|exact Hc'].
Qed.

Lemma GenerateRandomString_shape env (n : Z) w id w' :
  GenerateRandomString env n w = (Next (id, None), w') ->
  0 <= n /\
  String.length id = Z.to_nat n /\
  Forall (fun c => c ∈ list_ascii_of_string letters) (list_ascii_of_string id).
Proof.
  unfold GenerateRandomString. destruct (Z.ltb_spec n 0) as [Hneg|Hpos];
    [discriminate|].
  intros Hrun. split; [exact Hpos|].
  apply GenerateRandomString_loop_shape in Hrun.
  - exact Hrun.
  - rewrite length_replicate. reflexivity.
  - intros j c Hj. lia.
Qed.

(** The generator never indexes past the alphabet: it ends with a string
    and no error, with the empty string and the reader's error, or it is
    still drawing. *)
Lemma GenerateRandomString_loop_result env (k i : nat) (ret : list ascii) w :
  exists w',
    (exists id, GenerateRandomString_loop env k i ret w = (Next (id, None), w')) \/
    GenerateRandomString_loop env k i ret w = (Next (EmptyString, Some ErrRand), w') \/
    GenerateRandomString_loop env k i ret w = (Spin, w').
Proof.
  revert i ret w. induction k as [|k IH]; intros i ret w.
  - eexists. left. eexists. reflexivity.
  - cbn [GenerateRandomString_loop]. unfold mbind, M_bind.
    destruct (rand_Int_result env (N.of_nat (String.length letters)) w)
      as (w1 & _ & [(n & Hr & Hn)|[Hr|[Hr|[Hmax _]]]]); [| | |discriminate Hmax];
      rewrite Hr.
    + destruct (String_get_lt letters (N.to_nat n)) as [c Hc].
      { change (N.of_nat (String.length letters)) with 63%N in Hn.
        rewrite letters_length. lia. }
      rewrite Hc. apply IH.
    + eexists. right. left. reflexivity.
    + eexists. right. right. reflexivity.
Qed.

(** The alphabet has 63 symbols, not 64. *)
Lemma letters_not_64 : String.length letters <> 64%nat.
Proof. discriminate. Qed.

(** C10, amended: every id that wallet creation answers with is 6
    characters long, each drawn from the fixed alphabet of the digits, the
    capital and small Latin letters and the hyphen, which has 63 symbols;
    the wallet is stored under that id with balance 100. *)
Theorem created_wallet_id env s code id balance :
  let o := serve (create_handler env) s in
  response o.2 = Some (mkResponse code (JCreated id balance)) ->
  String.length id = 6%nat /\
  Forall (fun c => c ∈ list_ascii_of_string letters) (list_ascii_of_string id) /\
  length (list_ascii_of_string letters) = 63%nat /\
  NoDup (list_ascii_of_string letters) /\
  letters = ("0123456789" ++ "ABCDEFGHIJKLMNOPQRSTUVWXYZ"
             ++ "abcdefghijklmnopqrstuvwxyz" ++ "-")%string /\
  wallets (db o.2) !! id = Some (NewFromInt 100).
Proof.
  cbv zeta. unfold serve, create_handler, mbind, M_bind.
  destruct (GenerateRandomString env 6 (init_world s)) as [f w'] eqn:Hgen.
  pose proof (GenerateRandomString_frame _ _ _ _ _ Hgen) as Hframe.
  assert (Hresp : response w' = None) by (rewrite Hframe; reflexivity).
  assert (Hdb : db w' = s) by (rewrite Hframe; reflexivity).
  destruct f as [[id' [e|]]| | | |]; unfold panic; cbn [snd];
    try (rewrite Hresp; discriminate).
  unfold db_Exec_insert, insert_wallet. rewrite Hdb.
  destruct (Exec_err env) as [e|]; cbn; [rewrite Hresp; discriminate|].
  destruct (wallets s !! id') eqn:Hfree; cbn; [rewrite Hresp; discriminate|].
  intros H. injection H as _ <- _.
  destruct (GenerateRandomString_shape _ _ _ _ _ Hgen) as (_ & Hlen & Hall).
  split; [exact Hlen|]. split; [exact Hall|].
  split; [reflexivity|]. split; [exact letters_NoDup|].
  split; [reflexivity|]. apply lookup_insert_eq.
Qed.

Lemma created_wallet_id_witness :
  let id := "012345"%string in
  String.length id = 6%nat /\
  Forall (fun c => c ∈ list_ascii_of_string letters) (list_ascii_of_string id) /\
  length (list_ascii_of_string letters) = 63%nat /\
  NoDup (list_ascii_of_string letters) /\
  letters = ("0123456789" ++ "ABCDEFGHIJKLMNOPQRSTUVWXYZ"
             ++ "abcdefghijklmnopqrstuvwxyz" ++ "-")%string /\
  wallets (db (serve (create_handler plain_env) two_wallets).2) !! id
  = Some (NewFromInt 100).
Proof.
  apply (created_wallet_id plain_env two_wallets StatusCreated "012345" 100).
  reflexivity.
Defined.

(** ** The goroutines of the send handler *)

Lemma send_after_from_ok toId r w :
  Err r = None ->
  send_after_from toId r w
  = (Next tt, set_log ((log w ++ [LStr "walletResTo"]) ++ [LStr toId]) w).
Proof.
  intros Hr. unfold send_after_from. rewrite Hr.
  unfold mbind, M_bind, Println. destruct w; reflexivity.
Qed.

Lemma send_after_from_err toId r w e :
  Err r = Some e ->
  exists f w', send_after_from toId r w = (f, w') /\ forall a, f <> Next a.
Proof.
  intros Hr. unfold send_after_from. rewrite Hr.
  unfold mbind, M_bind, tx_Rollback, Println, AbortWithStatus, Return_.
  destruct (tx w) as [[st []]|]; cbn; eexists _, _; (split; [reflexivity|discriminate]).
Qed.

(** With the transaction at hand, a failed source load ends the handler
    with 404 and the load's error as the last line logged. *)
Lemma send_after_from_not_found toId r w e t :
  Err r = Some e -> tx w = Some t ->
  exists w', send_after_from toId r w = (Return, w') /\
             response w' = Some (mkResponse StatusNotFound NoBody) /\
             last (log w') = Some (LErr (Some e)) /\ db w' = db w.
Proof.
  intros Hr Ht. unfold send_after_from. rewrite Hr.
  unfold mbind, M_bind, tx_Rollback, Println, AbortWithStatus, Return_.
  rewrite Ht. destruct t as [st []]; cbn; eexists;
    (split; [reflexivity|]); cbn; rewrite last_snoc; repeat split.
Qed.

Lemma send_after_to_bad_request env fromId toId amount rf r w e t :
  Err r = Some e -> tx w = Some t ->
  exists w', send_after_to env fromId toId amount rf r w = (Return, w') /\
             response w' = Some (mkResponse StatusBadRequest NoBody) /\
             last (log w') = Some (LErr (Some e)) /\ db w' = db w.
Proof.
  intros Hr Ht. unfold send_after_to. rewrite Hr.
  unfold mbind, M_bind, tx_Rollback, Println, AbortWithStatus, Return_.
  rewrite Ht. destruct t as [st []]; cbn; eexists;
    (split; [reflexivity|]); cbn; rewrite last_snoc; repeat split.
Qed.

Lemma send_join_unfold env fromId toId amount w :
  send_join env fromId toId amount w
  = let rf := tx_QueryRow_Scan (TxQueryRow_err env SFrom) (tx w) fromId in
    match send_after_from toId rf w with
    | (Next _, w1) =>
        send_after_to env fromId toId amount rf
          (tx_QueryRow_Scan (TxQueryRow_err env STo) (tx w1) toId) w1
    | (Return, w1) => (Return, w1)
    | (Panic e, w1) => (Panic e, w1)
    | (Fatal e, w1) => (Fatal e, w1)
    | (Spin, w1) => (Spin, w1)
    end.
Proof. reflexivity. Qed.

(** Every move uses up one of the at most six there are: no run is longer
    than that, whatever the channels' capacities. *)
Lemma step_moves_left env fromId toId amount s s' :
  step env fromId toId amount s s' -> (moves_left s' < moves_left s)%nat.
Proof.
  intros Hstep. destruct Hstep as [sd id s Hl | sd r s Hl Hroom
    | sd r s h' w' Hl Hbuf Hrecv | sd r rest s h' w' Hbuf Hrecv].
  - destruct sd; cbn in Hl; unfold moves_left; cbn; rewrite Hl; cbn; lia.
  - destruct sd; cbn in Hl; unfold moves_left; cbn; rewrite Hl; cbn; lia.
  - unfold receive in Hrecv.
    destruct (handler s) as [|rf|f] eqn:Hh, sd; try discriminate; cbn in Hl.
    + destruct (send_after_from toId r (world s)) as [f w1].
      injection Hrecv as <- <-. unfold moves_left. cbn. rewrite Hh, Hl.
      destruct f; cbn; lia.
    + destruct (send_after_to env fromId toId amount rf r (world s)) as [f w1].
      injection Hrecv as <- <-. unfold moves_left. cbn. rewrite Hh, Hl. cbn. lia.
  - unfold receive in Hrecv.
    destruct (handler s) as [|rf|f] eqn:Hh, sd; try discriminate.
    + destruct (send_after_from toId r (world s)) as [f w1].
      injection Hrecv as <- <-. unfold moves_left. cbn. rewrite Hh.
      destruct f; cbn; lia.
    + destruct (send_after_to env fromId toId amount rf r (world s)) as [f w1].
      injection Hrecv as <- <-. unfold moves_left. cbn. rewrite Hh. cbn. lia.
Qed.

Section Run.

Context (env : Env) (fromId toId : string) (amount : Decimal).
Context (w0 : World).

Local Abbreviation rf := (tx_QueryRow_Scan (TxQueryRow_err env SFrom) (tx w0) fromId).
Local Abbreviation rt := (tx_QueryRow_Scan (TxQueryRow_err env STo) (tx w0) toId).
Local Abbreviation run := (rtc (step env fromId toId amount)).

Lemma reached_spawn : reached env fromId toId amount w0 (spawn fromId toId w0).
Proof. repeat split; left; reflexivity. Qed.

Lemma reached_step s s' :
  reached env fromId toId amount w0 s -> step env fromId toId amount s s' ->
  reached env fromId toId amount w0 s'.
Proof.
  intros [Hunb Hinv] Hstep.
  pose proof Hunb as (Hc1 & Hb1 & Hc2 & Hb2).
  destruct Hstep as [sd id s Hl | sd r s Hl Hroom
    | sd r s h' w' Hl Hbuf Hrecv | sd r rest s h' w' Hbuf Hrecv].
  - (* a loader runs its query *)
    split; [destruct sd; exact Hunb|].
    destruct sd; cbn in Hl |- *; destruct (handler s) as [|r0|f].
    + destruct Hinv as (Hw & [Hf|Hf] & Ht); [|congruence].
      rewrite Hf in Hl. injection Hl as <-. rewrite Hw.
      split; [reflexivity|]. split; [right; reflexivity|exact Ht].
    + destruct Hinv as (_ & _ & _ & _ & Hf & _). congruence.
    + destruct Hinv as (_ & Hf & _). congruence.
    + destruct Hinv as (Hw & Hf & [Ht|Ht]); [|congruence].
      rewrite Ht in Hl. injection Hl as <-. rewrite Hw.
      split; [reflexivity|]. split; [exact Hf|right; reflexivity].
    + destruct Hinv as (Hr & He & Hsaf & Htx & Hf & [Ht|Ht]); [|congruence].
      rewrite Ht in Hl. injection Hl as <-. rewrite Htx.
      repeat split; try assumption. right; reflexivity.
    + destruct Hinv as (Hj & Hf & Hok & Herr).
      split; [exact Hj|]. split; [exact Hf|]. split.
      * intros He. rewrite (Hok He) in Hl. discriminate.
      * intros _. right. eexists. reflexivity.
  - (* a buffered send: there is no room *)
    exfalso. destruct sd; cbn in Hroom; [rewrite Hc1 in Hroom|rewrite Hc2 in Hroom]; lia.
  - (* a loader hands its result to the waiting handler *)
    split; [destruct sd; exact Hunb|].
    unfold receive in Hrecv.
    destruct (handler s) as [|r0|f] eqn:Hh, sd; try discriminate; cbn in Hl.
    + destruct Hinv as (Hw & [Hf|Hf] & Ht); [congruence|].
      rewrite Hf in Hl. injection Hl as <-. rewrite Hw in Hrecv.
      destruct (Err rf) as [e|] eqn:He.
      * destruct (send_after_from_err toId rf w0 e He) as (f & w1 & Hsaf & Hnot).
        rewrite Hsaf in Hrecv.
        assert (Hh' : h' = HReturned f /\ w' = w1).
        { destruct f; injection Hrecv as <- <-; try (split; reflexivity).
          exfalso. exact (Hnot a eq_refl). }
        destruct Hh' as [-> ->]. cbn.
        split.
        { rewrite send_join_unfold. cbv zeta. rewrite Hsaf.
          destruct f; try reflexivity. exfalso. exact (Hnot a eq_refl). }
        split; [reflexivity|]. split; [intros; discriminate|].
        intros _. destruct Ht as [Ht|Ht]; [left; exact Ht|right; eexists; exact Ht].
      * rewrite (send_after_from_ok toId rf w0 He) in Hrecv.
        injection Hrecv as <- <-. cbn.
        split; [reflexivity|]. split; [reflexivity|].
        split; [apply send_after_from_ok; exact He|].
        split; [reflexivity|]. split; [reflexivity|exact Ht].
    + destruct Hinv as (Hr & He & Hsaf & Htx & Hf & [Ht|Ht]); [congruence|].
      rewrite Ht in Hl. injection Hl as <-. subst r0.
      destruct (send_after_to env fromId toId amount rf rt (world s)) as [f w1] eqn:Hsat.
      injection Hrecv as <- <-. cbn.
      split.
      { rewrite send_join_unfold. cbv zeta. rewrite Hsaf, Htx, Hsat. reflexivity. }
      split; [exact Hf|]. split; [reflexivity|]. intros Hne. contradiction.
  - (* the handler takes from a buffer: there is none *)
    exfalso. destruct sd; cbn in Hbuf; congruence.
Qed.

Lemma reached_run s :
  run (spawn fromId toId w0) s -> reached env fromId toId amount w0 s.
Proof.
  revert s.
  apply (rtc_ind_r (reached env fromId toId amount w0) (spawn fromId toId w0)).
  - exact reached_spawn.
  - intros y z _ Hstep IH. exact (reached_step _ _ IH Hstep).
Qed.

(** A reached state in which nothing can move: the handler has returned and
    the source loader is done. *)
Lemma reached_terminal s :
  reached env fromId toId amount w0 s -> terminal env fromId toId amount s ->
  exists f, handler s = HReturned f.
Proof.
  intros [(Hc1 & Hb1 & Hc2 & Hb2) Hinv] Hterm.
  destruct (handler s) as [|r0|f] eqn:Hh; [exfalso..|eexists; reflexivity].
  - destruct Hinv as (Hw & [Hf|Hf] & Ht).
    + exact (Hterm _ (step_query env fromId toId amount SFrom fromId s Hf)).
    + destruct (send_after_from toId rf (world s)) as [f w1] eqn:Hsaf.
      refine (Hterm _ (step_send_receive env fromId toId amount SFrom rf s _ w1 Hf Hb1 _)).
      unfold receive. rewrite Hh, Hsaf. reflexivity.
  - destruct Hinv as (Hr & He & Hsaf & Htx & Hf & [Ht|Ht]).
    + exact (Hterm _ (step_query env fromId toId amount STo toId s Ht)).
    + destruct (send_after_to env fromId toId amount r0 rt (world s)) as [f w1] eqn:Hsat.
      refine (Hterm _ (step_send_receive env fromId toId amount STo rt s _ w1 Ht Hb2 _)).
      unfold receive. rewrite Hh, Hsat. reflexivity.
Qed.

(** A reached state either has a move or is one in which nothing moves. *)
Lemma reached_progress s :
  reached env fromId toId amount w0 s ->
  terminal env fromId toId amount s \/ exists s', step env fromId toId amount s s'.
Proof.
  intros [Hunb Hinv]. pose proof Hunb as (Hc1 & Hb1 & Hc2 & Hb2).
  destruct (handler s) as [|r0|f] eqn:Hh.
  - right. destruct Hinv as (Hw & [Hf|Hf] & Ht).
    + eexists. exact (step_query env fromId toId amount SFrom fromId s Hf).
    + destruct (send_after_from toId rf (world s)) as [f w1] eqn:Hsaf.
      eexists.
      refine (step_send_receive env fromId toId amount SFrom rf s _ w1 Hf Hb1 _).
      unfold receive. rewrite Hh, Hsaf. reflexivity.
  - right. destruct Hinv as (Hr & He & Hsaf & Htx & Hf & [Ht|Ht]).
    + eexists. exact (step_query env fromId toId amount STo toId s Ht).
    + destruct (send_after_to env fromId toId amount r0 rt (world s)) as [f1 w1] eqn:Hsat.
      eexists.
      refine (step_send_receive env fromId toId amount STo rt s _ w1 Ht Hb2 _).
      unfold receive. rewrite Hh, Hsat. reflexivity.
  - destruct Hinv as (Hj & Hf & Hok & Herr).
    destruct (Err rf) as [e|] eqn:He.
    + destruct (Herr ltac:(discriminate)) as [Ht|[r Ht]].
      * right. eexists. exact (step_query env fromId toId amount STo toId s Ht).
      * left. intros s' Hstep.
        destruct Hstep as [sd id s Hl | sd r' s Hl Hroom
          | sd r' s h' w' Hl Hbuf Hrecv | sd r' rest s h' w' Hbuf Hrecv].
        -- destruct sd; cbn in Hl; congruence.
        -- destruct sd; cbn in Hroom; [rewrite Hc1 in Hroom|rewrite Hc2 in Hroom]; lia.
        -- unfold receive in Hrecv. rewrite Hh in Hrecv. discriminate.
        -- destruct sd; cbn in Hbuf; congruence.
    + left. specialize (Hok eq_refl). intros s' Hstep.
      destruct Hstep as [sd id s Hl | sd r' s Hl Hroom
        | sd r' s h' w' Hl Hbuf Hrecv | sd r' rest s h' w' Hbuf Hrecv].
      * destruct sd; cbn in Hl; congruence.
      * destruct sd; cbn in Hroom; [rewrite Hc1 in Hroom|rewrite Hc2 in Hroom]; lia.
      * unfold receive in Hrecv. rewrite Hh in Hrecv. discriminate.
      * destruct sd; cbn in Hbuf; congruence.
Qed.

(** Every run can be carried on until nothing moves. *)
Lemma reached_ends (n : nat) s :
  (moves_left s <= n)%nat ->
  reached env fromId toId amount w0 s ->
  exists s', run s s' /\ terminal env fromId toId amount s'.
Proof.
  revert s. induction n as [|n IH]; intros s Hn Hreached.
  - destruct (reached_progress s Hreached) as [Hterm|[s' Hstep]].
    + exists s. split; [apply rtc_refl|exact Hterm].
    + apply step_moves_left in Hstep. lia.
  - destruct (reached_progress s Hreached) as [Hterm|[s' Hstep]].
    + exists s. split; [apply rtc_refl|exact Hterm].
    + destruct (IH s') as (s'' & Hrun & Hterm).
      * apply step_moves_left in Hstep. lia.
      * exact (reached_step _ _ Hreached Hstep).
      * exists s''. split; [eapply rtc_l; eassumption|exact Hterm].
Qed.

End Run.

(** Nothing moves once the handler has returned and each loader is either
    done or at its send on an unbuffered channel. *)
Lemma returned_terminal env fromId toId amount s f :
  handler s = HReturned f ->
  unbuffered s ->
  (forall sd id, loader sd s <> LQuery id) ->
  terminal env fromId toId amount s.
Proof.
  intros Hh (Hc1 & Hb1 & Hc2 & Hb2) Hnq s' Hstep.
  destruct Hstep as [sd id s Hl | sd r s Hl Hroom
    | sd r s h' w' Hl Hbuf Hrecv | sd r rest s h' w' Hbuf Hrecv].
  - exact (Hnq sd id Hl).
  - destruct sd; cbn in Hroom; [rewrite Hc1 in Hroom|rewrite Hc2 in Hroom]; lia.
  - unfold receive in Hrecv. rewrite Hh in Hrecv. discriminate.
  - destruct sd; cbn in Hbuf; congruence.
Qed.

Lemma spawned_world_begin toId amount :
  send_begin plain_env (Some (mkSendWalletRequestBody toId amount))
    (init_world two_wallets)
  = (Next (mkSendWalletRequestBody toId amount), spawned_world).
Proof. reflexivity. Qed.

(** Whatever the two loaders and the handler do, the handler ends as the
    sequential [send_join] does. *)
Lemma goroutines_agree env fromId toId amount w0 s f :
  rtc (step env fromId toId amount) (spawn fromId toId w0) s ->
  handler s = HReturned f ->
  (f, world s) = send_join env fromId toId amount w0.
Proof.
  intros Hrun Hh. apply reached_run in Hrun. destruct Hrun as [_ Hinv].
  rewrite Hh in Hinv. exact (proj1 Hinv).
Qed.

(** The destination loader has delivered only if the source loader has, and
    with a wallet. *)
Lemma delivered_in_order env fromId toId amount w0 s :
  rtc (step env fromId toId amount) (spawn fromId toId w0) s ->
  ldTo s = LDone ->
  ldFrom s = LDone /\
  Err (tx_QueryRow_Scan (TxQueryRow_err env SFrom) (tx w0) fromId) = None.
Proof.
  intros Hrun Hdone. apply reached_run in Hrun. destruct Hrun as [_ Hinv].
  destruct (handler s) as [|r0|f].
  - destruct Hinv as (_ & _ & [Ht|Ht]); congruence.
  - destruct Hinv as (_ & _ & _ & _ & _ & [Ht|Ht]); congruence.
  - destruct Hinv as (_ & Hf & _ & Herr). split; [exact Hf|].
    destruct (Err (tx_QueryRow_Scan _ (tx w0) fromId)) as [e|] eqn:He; [|reflexivity].
    destruct (Herr ltac:(discriminate)) as [Ht|[r Ht]]; congruence.
Qed.

(** C4: the handler takes the source result before the destination result,
    and maps their errors apart.  A source load that fails ends the handler
    with 404 and that error logged, whatever the destination load gives, and
    no receive on [toCh] follows; a destination load that fails after a good
    source load ends it with 400 and the destination's error logged.  In
    every state reached, the destination loader has delivered only if the
    source loader has, and successfully. *)
Theorem error_priority env fromId toId amount :
  (forall walletResFrom e w t,
     Err walletResFrom = Some e -> tx w = Some t ->
     exists w',
       receive env fromId toId amount HRecvFrom SFrom walletResFrom w
       = Some (HReturned Return, w') /\
       response w' = Some (mkResponse StatusNotFound NoBody) /\
       last (log w') = Some (LErr (Some e)) /\ db w' = db w) /\
  (forall walletResFrom walletResTo e w t,
     Err walletResTo = Some e -> tx w = Some t ->
     exists w',
       receive env fromId toId amount (HRecvTo walletResFrom) STo walletResTo w
       = Some (HReturned Return, w') /\
       response w' = Some (mkResponse StatusBadRequest NoBody) /\
       last (log w') = Some (LErr (Some e)) /\ db w' = db w) /\
  (forall r w, receive env fromId toId amount HRecvFrom STo r w = None) /\
  (forall w0 s,
     rtc (step env fromId toId amount) (spawn fromId toId w0) s ->
     ldTo s = LDone ->
     ldFrom s = LDone /\
     Err (tx_QueryRow_Scan (TxQueryRow_err env SFrom) (tx w0) fromId) = None) /\
  (forall s,
     BeginTx_err env = None ->
     let o := serve (send_handler env fromId
                       (Some (mkSendWalletRequestBody toId amount))) s in
     (wallets s !! fromId = None -> http_status o = Some StatusNotFound) /\
     (is_Some (TxQueryRow_err env SFrom) -> http_status o = Some StatusNotFound) /\
     (is_Some (wallets s !! fromId) -> TxQueryRow_err env SFrom = None ->
      wallets s !! toId = None -> http_status o = Some StatusBadRequest) /\
     (is_Some (wallets s !! fromId) -> TxQueryRow_err env SFrom = None ->
      is_Some (TxQueryRow_err env STo) -> http_status o = Some StatusBadRequest)).
Proof.
  split; [|split; [|split; [|split]]].
  - intros rf e w t He Ht.
    destruct (send_after_from_not_found toId rf w e t He Ht) as (w' & Hrun & Hrest).
    exists w'. split; [|exact Hrest]. unfold receive. rewrite Hrun. reflexivity.
  - intros rf rt e w t He Ht.
    destruct (send_after_to_bad_request env fromId toId amount rf rt w e t He Ht)
      as (w' & Hrun & Hrest).
    exists w'. split; [|exact Hrest]. unfold receive. rewrite Hrun. reflexivity.
  - reflexivity.
  - intros w0 s. apply delivered_in_order.
  - intros s Hb. cbv zeta. split; [|split; [|split]].
    + intros HB. destruct (TxQueryRow_err env SFrom) as [e|] eqn:Hf.
      * rewrite (send_from_failed _ _ _ _ _ _ Hb Hf). reflexivity.
      * rewrite (send_from_missing _ _ _ _ _ Hb Hf HB). reflexivity.
    + intros [e Hf]. rewrite (send_from_failed _ _ _ _ _ _ Hb Hf). reflexivity.
    + intros [B HB] Hf HD. destruct (TxQueryRow_err env STo) as [e|] eqn:Ht.
      * rewrite (send_to_failed _ _ _ _ _ _ _ Hb Hf HB Ht). reflexivity.
      * rewrite (send_to_missing _ _ _ _ _ _ Hb Hf HB Ht HD). reflexivity.
    + intros [B HB] Hf [e Ht].
      rewrite (send_to_failed _ _ _ _ _ _ _ Hb Hf HB Ht). reflexivity.
Qed.

Lemma error_priority_witness :
  (exists w',
     receive plain_env "Z" "Y" (NewFromInt 30) HRecvFrom SFrom
       (mkResult (mkWallet "" Zero) (Some ErrNoRows)) spawned_world
     = Some (HReturned Return, w') /\
     response w' = Some (mkResponse StatusNotFound NoBody) /\
     last (log w') = Some (LErr (Some ErrNoRows)) /\ db w' = db spawned_world) /\
  http_status (serve (send_handler plain_env "Z"
                        (Some (mkSendWalletRequestBody "Q" (NewFromInt 30)))) two_wallets)
  = Some StatusNotFound /\
  http_status (serve (send_handler (load_failing_env SFrom) "X"
                        (Some (mkSendWalletRequestBody "Q" (NewFromInt 30)))) two_wallets)
  = Some StatusNotFound /\
  http_status (serve (send_handler plain_env "X"
                        (Some (mkSendWalletRequestBody "Q" (NewFromInt 30)))) two_wallets)
  = Some StatusBadRequest /\
  http_status (serve (send_handler (load_failing_env STo) "X"
                        (Some (mkSendWalletRequestBody "Y" (NewFromInt 30)))) two_wallets)
  = Some StatusBadRequest.
Proof.
  split; [|split; [|split; [|split]]].
  - apply (proj1 (error_priority plain_env "Z" "Y" (NewFromInt 30))
             (mkResult (mkWallet "" Zero) (Some ErrNoRows)) ErrNoRows spawned_world
             (mkTx two_wallets TxOpen)); reflexivity.
  - apply (proj1 (proj2 (proj2 (proj2 (proj2
             (error_priority plain_env "Z" "Q" (NewFromInt 30))))) two_wallets eq_refl)).
    reflexivity.
  - apply (proj1 (proj2 (proj2 (proj2 (proj2 (proj2
             (error_priority (load_failing_env SFrom) "X" "Q" (NewFromInt 30)))))
             two_wallets eq_refl))).
    eexists. reflexivity.
  - apply (proj1 (proj2 (proj2 (proj2 (proj2 (proj2 (proj2
             (error_priority plain_env "X" "Q" (NewFromInt 30))))) two_wallets eq_refl)))).
    + eexists. reflexivity.
    + reflexivity.
    + reflexivity.
  - apply (proj2 (proj2 (proj2 (proj2 (proj2 (proj2 (proj2
             (error_priority (load_failing_env STo) "X" "Y" (NewFromInt 30)))))
             two_wallets eq_refl)))).
    + eexists. reflexivity.
    + reflexivity.
    + eexists. reflexivity.
Defined.

(** ** The abandoned loader *)

Lemma abandoned_run :
  rtc (step plain_env "Z" "Y" (NewFromInt 30)) (spawn "Z" "Y" spawned_world)
    abandoned_state.
Proof.
  eapply rtc_l.
  { apply (step_query plain_env "Z" "Y" (NewFromInt 30) SFrom "Z"). reflexivity. }
  eapply rtc_l.
  { eapply (step_send_receive plain_env "Z" "Y" (NewFromInt 30) SFrom); reflexivity. }
  eapply rtc_l.
  { apply (step_query plain_env "Z" "Y" (NewFromInt 30) STo "Y"). reflexivity. }
  apply rtc_refl.
Qed.

(** C5, as the code runs it: the channels are unbuffered, so when the source
    wallet "Z" is unknown the handler answers 404 without receiving from
    [toCh], and the destination loader never gets past its send: in no state
    that can be reached has it returned, and the run can end with it
    standing at the send with nothing left that could move.  On the path
    where the source load succeeds the handler does receive from [toCh] and
    the loader returns ([loaders_deliver_when_received]). *)
Theorem abandoned_loader_never_delivers :
  cap (toCh (spawn "Z" "Y" spawned_world)) = 0%nat /\
  Err (tx_QueryRow_Scan (TxQueryRow_err plain_env SFrom) (tx spawned_world) "Z")
  = Some ErrNoRows /\
  (forall s,
     rtc (step plain_env "Z" "Y" (NewFromInt 30)) (spawn "Z" "Y" spawned_world) s ->
     ldTo s <> LDone) /\
  rtc (step plain_env "Z" "Y" (NewFromInt 30)) (spawn "Z" "Y" spawned_world)
    abandoned_state /\
  response (world abandoned_state) = Some (mkResponse StatusNotFound NoBody) /\
  (exists r, ldTo abandoned_state = LSend r) /\
  terminal plain_env "Z" "Y" (NewFromInt 30) abandoned_state.
Proof.
  split; [reflexivity|]. split; [reflexivity|]. split; [|split; [|split; [|split]]].
  - intros s Hrun Hdone.
    destruct (delivered_in_order _ _ _ _ _ _ Hrun Hdone) as [_ He].
    discriminate He.
  - exact abandoned_run.
  - reflexivity.
  - eexists. reflexivity.
  - apply (returned_terminal _ _ _ _ _ Return); [reflexivity|repeat split|].
    intros [] id; discriminate.
Qed.

(** With one slot of buffer on [toCh] the same loader would get through. *)
Lemma buffered_slot_would_deliver :
  exists s,
    rtc (step plain_env "Z" "Y" (NewFromInt 30))
      (spawn_with "Z" "Y" (make_chan 0) (make_chan 1) spawned_world) s /\
    ldTo s = LDone.
Proof.
  eexists. split.
  - eapply rtc_l.
    { apply (step_query plain_env "Z" "Y" (NewFromInt 30) STo "Y"). reflexivity. }
    eapply rtc_l.
    { eapply (step_send_buffer plain_env "Z" "Y" (NewFromInt 30) STo).
      - reflexivity.
      - cbn. lia. }
    apply rtc_refl.
  - reflexivity.
Qed.

(** The channels are unbuffered and a loader gets past its send only by
    handing its result to the handler.  Every run comes to a state in which
    nothing moves, after at most six moves; in such a state the handler has
    returned as [send_join] does, the source loader has delivered and
    returned, and so has the destination loader whenever the source load
    succeeded. *)
Lemma loaders_deliver_when_received env fromId toId amount w0 :
  unbuffered (spawn fromId toId w0) /\
  (exists s, rtc (step env fromId toId amount) (spawn fromId toId w0) s /\
             terminal env fromId toId amount s) /\
  (forall s1 s2, step env fromId toId amount s1 s2 ->
                 (moves_left s2 < moves_left s1)%nat) /\
  moves_left (spawn fromId toId w0) = 6%nat /\
  (forall s,
     rtc (step env fromId toId amount) (spawn fromId toId w0) s ->
     terminal env fromId toId amount s ->
     unbuffered s /\
     (exists f, handler s = HReturned f /\
                (f, world s) = send_join env fromId toId amount w0) /\
     ldFrom s = LDone /\
     (Err (tx_QueryRow_Scan (TxQueryRow_err env SFrom) (tx w0) fromId) = None ->
      ldTo s = LDone)).
Proof.
  split; [repeat split|].
  split; [apply (reached_ends env fromId toId amount w0 6);
          [reflexivity|apply reached_spawn]|].
  split; [apply step_moves_left|]. split; [reflexivity|].
  intros s Hrun Hterm. pose proof (reached_run _ _ _ _ _ _ Hrun) as Hreached.
  destruct (reached_terminal _ _ _ _ _ _ Hreached Hterm) as [f Hh].
  destruct Hreached as [Hunb Hinv]. rewrite Hh in Hinv.
  destruct Hinv as (Hj & Hf & Hok & _).
  split; [exact Hunb|]. split; [exists f; split; [exact Hh|exact Hj]|].
  split; [exact Hf|exact Hok].
Qed.

Lemma delivered_run :
  rtc (step plain_env "X" "Y" (NewFromInt 30)) (spawn "X" "Y" spawned_world)
    delivered_state.
Proof.
  eapply rtc_l.
  { apply (step_query plain_env "X" "Y" (NewFromInt 30) STo "Y"). reflexivity. }
  eapply rtc_l.
  { apply (step_query plain_env "X" "Y" (NewFromInt 30) SFrom "X"). reflexivity. }
  eapply rtc_l.
  { eapply (step_send_receive plain_env "X" "Y" (NewFromInt 30) SFrom); reflexivity. }
  eapply rtc_l.
  { eapply (step_send_receive plain_env "X" "Y" (NewFromInt 30) STo); reflexivity. }
  apply rtc_refl.
Qed.

Lemma delivered_terminal :
  terminal plain_env "X" "Y" (NewFromInt 30) delivered_state.
Proof.
  apply (returned_terminal _ _ _ _ _ (Next tt)); [reflexivity|repeat split|].
  intros [] id; discriminate.
Qed.

Lemma loaders_deliver_when_received_witness :
  ldFrom delivered_state = LDone /\
  (Err (tx_QueryRow_Scan (TxQueryRow_err plain_env SFrom) (tx spawned_world) "X")
   = None ->
   ldTo delivered_state = LDone).
Proof.
  destruct (proj2 (proj2 (proj2 (proj2
              (loaders_deliver_when_received plain_env "X" "Y" (NewFromInt 30)
                 spawned_world))))
              delivered_state delivered_run delivered_terminal)
    as (_ & _ & Hfrom & Hto).
  split; [exact Hfrom|exact Hto].
Defined.

(** ** What each request does to the store *)

Lemma create_outcome env s :
  let o := serve (create_handler env) s in
  (exists id,
     o.1 = Next tt /\
     response o.2 = Some (mkResponse StatusCreated (JCreated id 100)) /\
     wallets s !! id = None /\ Exec_err env = None /\
     db o.2 = mkStore (<[id := NewFromInt 100]> (wallets s)) (wallet_transactions s) /\
     String.length id = 6%nat /\
     Forall (fun c => c ∈ list_ascii_of_string letters) (list_ascii_of_string id)) \/
  (o.1 = Panic ErrRand /\ response o.2 = None /\ db o.2 = s) \/
  (exists id e,
     o.1 = Fatal e /\ response o.2 = None /\ db o.2 = s /\
     (Exec_err env = Some e \/
      Exec_err env = None /\ e = ErrConstraint /\ is_Some (wallets s !! id))) \/
  (o.1 = Spin /\ response o.2 = None /\ db o.2 = s).
Proof.
  cbv zeta. unfold serve, create_handler, mbind, M_bind.
  destruct (GenerateRandomString_loop_result env 6 0 (replicate 6 zero) (init_world s))
    as [w' [[id Hgen]|[Hgen|Hgen]]];
    change (GenerateRandomString_loop env 6 0 (replicate 6 zero))
      with (GenerateRandomString env 6) in Hgen; rewrite Hgen;
    pose proof (GenerateRandomString_frame _ _ _ _ _ Hgen) as Hframe;
    assert (Hdb : db w' = s) by (rewrite Hframe; reflexivity);
    assert (Hresp : response w' = None) by (rewrite Hframe; reflexivity).
  - unfold db_Exec_insert, insert_wallet. rewrite Hdb.
    destruct (Exec_err env) as [e|] eqn:Hexec.
    { right. right. left. exists id, e. cbn. rewrite Hresp, Hdb.
      repeat split. left. reflexivity. }
    destruct (wallets s !! id) as [b|] eqn:Hfree.
    + right. right. left. exists id, ErrConstraint. cbn. rewrite Hresp, Hdb.
      repeat split. right. repeat split. rewrite Hfree. eexists; reflexivity.
    + left. exists id. cbn.
      destruct (GenerateRandomString_shape _ _ _ _ _ Hgen) as (_ & Hlen & Hall).
      repeat split; assumption.
  - right. left. unfold panic. cbn. rewrite Hresp, Hdb. repeat split.
  - right. right. right. cbn. rewrite Hresp, Hdb. repeat split.
Qed.

Lemma history_keeps_store env s id : db (serve (history_handler env id) s).2 = s.
Proof.
  destruct (history_cases env s id) as [(e & -> & _)|(k & -> & _)]; reflexivity.
Qed.

Lemma get_keeps_store env s id : db (serve (get_handler env id) s).2 = s.
Proof.
  unfold_handlers. destruct (QueryRow_err env); [reflexivity|].
  cbn. destruct (wallets s !! id); reflexivity.
Qed.

Lemma validate_true_positive sb db a :
  validate sb db a = true ->
  IsPositive (Sub sb a) = true /\ IsPositive (Add db a) = true.
Proof.
  unfold validate. cbv zeta.
  rewrite negb_true_iff, orb_false_iff, !negb_false_iff. tauto.
Qed.

(** One request leaves the store as it was, adds one wallet of 100 under an
    id that was free, or rewrites the balances of two wallets that exist to
    what the column makes of values the validator approved and appends the
    record of it. *)
Lemma request_effect env r s :
  let s' := db (serve (handle env r) s).2 in
  s' = s \/
  (exists id,
     wallets s !! id = None /\
     String.length id = 6%nat /\
     Forall (fun c => c ∈ list_ascii_of_string letters) (list_ascii_of_string id) /\
     s' = mkStore (<[id := NewFromInt 100]> (wallets s)) (wallet_transactions s)) \/
  (exists fromId toId amount B D,
     wallets s !! fromId = Some B /\ wallets s !! toId = Some D /\
     validate B D amount = true /\
     s' = send_statements (Column env) (Sub B amount) fromId (Add D amount) toId
            amount (Now env) s).
Proof.
  cbv zeta. destruct r as [|walletid requestBody|walletid|walletid]; cbn [handle].
  - destruct (create_outcome env s)
      as [(id & _ & _ & Hfree & _ & Hdb & Hlen & Hall)
         | [(_ & _ & Hdb) | [(id & e & _ & _ & Hdb & _) | (_ & _ & Hdb)]]].
    + right. left. exists id. repeat split; assumption.
    + left. exact Hdb.
    + left. exact Hdb.
    + left. exact Hdb.
  - destruct (send_outcome env s walletid requestBody)
      as [(_ & body & B & D & _ & HB & HD & Hv & _ & Hdb) | (_ & Hdb)].
    + right. right. exists walletid, (ID body), (Amount body), B, D.
      repeat split; assumption.
    + left. exact Hdb.
  - left. apply history_keeps_store.
  - left. apply get_keeps_store.
Qed.

(** ** What the store keeps, request after request *)

Lemma serve_all_keeps (P : Store -> Prop) :
  (forall env r s, P s -> P (db (serve (handle env r) s).2)) ->
  forall reqs s, P s -> P (serve_all reqs s).
Proof.
  intros Hkeep reqs. induction reqs as [|[env r] reqs IH]; intros s Hs; [exact Hs|].
  cbn [serve_all]. cbv zeta. pose proof (Hkeep env r s Hs) as Hs'.
  destruct (serve (handle env r) s).1; try (apply IH; exact Hs'). exact Hs'.
Qed.

Lemma send_statements_lookup_cases column fromAmount fromId toAmount toId amount now s id b :
  wallets (send_statements column fromAmount fromId toAmount toId amount now s) !! id
  = Some b ->
  b = column toAmount \/ b = column fromAmount \/ wallets s !! id = Some b.
Proof.
  rewrite send_statements_wallets.
  destruct (decide (toId = id)) as [->|Hto].
  - rewrite lookup_alter_eq.
    destruct (alter _ fromId (wallets s) !! id); cbn; intros H; [|discriminate].
    injection H as <-. left. reflexivity.
  - rewrite lookup_alter_ne by exact Hto.
    destruct (decide (fromId = id)) as [->|Hfrom].
    + rewrite lookup_alter_eq.
      destruct (wallets s !! id); cbn; intros H; [|discriminate].
      injection H as <-. right. left. reflexivity.
    + rewrite lookup_alter_ne by exact Hfrom. intros H. right. right. exact H.
Qed.

Lemma request_keeps_positive env r s :
  column_keeps_positive env ->
  balances_positive s -> balances_positive (db (serve (handle env r) s).2).
Proof.
  intros Hcol Hpos.
  destruct (request_effect env r s)
    as [-> | [(id & _ & _ & _ & ->) | (fromId & toId & amount & B & D & HB & HD & Hv & ->)]].
  - exact Hpos.
  - intros id' b. cbn. rewrite lookup_insert.
    destruct (decide (id = id')); [|apply Hpos].
    intros H. injection H as <-. reflexivity.
  - destruct (validate_true_positive _ _ _ Hv) as [Hfrom Hto].
    intros id b Hb.
    destruct (send_statements_lookup_cases _ _ _ _ _ _ _ _ _ _ Hb) as [->|[->|Hold]];
      [apply Hcol; assumption..|exact (Hpos id b Hold)].
Qed.

Lemma request_keeps_records env r s :
  records_resolve s -> records_resolve (db (serve (handle env r) s).2).
Proof.
  intros Hres.
  destruct (request_effect env r s)
    as [-> | [(id & _ & _ & _ & ->) | (fromId & toId & amount & B & D & HB & HD & Hv & ->)]].
  - exact Hres.
  - intros t Ht. cbn in Ht |- *. destruct (Hres t Ht) as [H1 H2].
    rewrite !lookup_insert_is_Some'. tauto.
  - intros t Ht. rewrite send_statements_wallets, !lookup_alter_is_Some.
    rewrite send_statements_transactions in Ht.
    apply elem_of_app in Ht. destruct Ht as [Ht|Ht]; [exact (Hres t Ht)|].
    apply list_elem_of_singleton in Ht. subst t. cbn.
    rewrite HB, HD. split; eexists; reflexivity.
Qed.

Lemma request_keeps_ids env r s :
  ids_well_formed s -> ids_well_formed (db (serve (handle env r) s).2).
Proof.
  intros Hids.
  destruct (request_effect env r s)
    as [-> | [(id & _ & Hlen & Hall & ->) | (fromId & toId & amount & B & D & HB & HD & Hv & ->)]].
  - exact Hids.
  - intros id'. cbn. rewrite lookup_insert_is_Some'.
    intros [<-|H]; [split; assumption|exact (Hids id' H)].
  - intros id. rewrite send_statements_wallets, !lookup_alter_is_Some. apply Hids.
Qed.

Lemma store_grows_refl s : store_grows s s.
Proof. split; [tauto|reflexivity]. Qed.

Lemma store_grows_trans s1 s2 s3 :
  store_grows s1 s2 -> store_grows s2 s3 -> store_grows s1 s3.
Proof.
  intros [H1 P1] [H2 P2]. split; [intros id H; exact (H2 id (H1 id H))|].
  etransitivity; eassumption.
Qed.

Lemma request_grows env r s : store_grows s (db (serve (handle env r) s).2).
Proof.
  destruct (request_effect env r s)
    as [-> | [(id & _ & _ & _ & ->) | (fromId & toId & amount & B & D & HB & HD & Hv & ->)]].
  - apply store_grows_refl.
  - split; [|reflexivity]. intros id' H. cbn.
    rewrite lookup_insert_is_Some'. right. exact H.
  - split.
    + intros id. rewrite send_statements_wallets, !lookup_alter_is_Some. tauto.
    + rewrite send_statements_transactions. apply prefix_app_r. reflexivity.
Qed.

Lemma get_wallet_read_only_cases env s id B :
  (QueryRow_err env = None -> wallets s !! id = Some B ->
   serve (get_handler env id) s
   = (Next tt, mkWorld s None [] (Some (mkResponse StatusOK (JWallet id B))) 0)) /\
  (QueryRow_err env = None -> wallets s !! id = None ->
   serve (get_handler env id) s
   = (Next tt, mkWorld s None [] (Some (mkResponse StatusNotFound NoBody)) 0)).
Proof.
  split; intros Hq HB; unfold_handlers; rewrite Hq; cbn; rewrite HB; reflexivity.
Qed.

(** ** The send handler as a whole *)

(** X1: the status a send is answered with, for every request, store and
    environment: 400 for a body that does not bind, 500 when the
    transaction cannot be begun, 404 when the source load fails or finds no
    wallet, 400 when the destination load fails or finds no wallet or the
    validator turns the transfer down, 500 when the write or the commit
    fails, 200 otherwise. *)
Theorem send_status_table env s fromId (requestBody : option SendWalletRequestBody) :
  http_status (serve (send_handler env fromId requestBody) s)
  = Some
      match requestBody with
      | None => StatusBadRequest
      | Some body =>
          match BeginTx_err env with
          | Some _ => StatusInternalServerError
          | None =>
              match TxQueryRow_err env SFrom, wallets s !! fromId with
              | None, Some B =>
                  match TxQueryRow_err env STo, wallets s !! ID body with
                  | None, Some D =>
                      if validate B D (Amount body) then
                        match ExecContext_err env, Commit_err env with
                        | None, None => StatusOK
                        | _, _ => StatusInternalServerError
                        end
                      else StatusBadRequest
                  | _, _ => StatusBadRequest
                  end
              | _, _ => StatusNotFound
              end
          end
      end.
Proof.
  destruct (send_cases env s fromId requestBody); cbn [ID Amount];
    repeat match goal with H : _ = _ |- _ => rewrite H; clear H end;
    reflexivity.
Qed.

(** X2: a send is all or nothing, whatever fails: unless the answer is 200
    the committed store is the one before, and after a 500 the transaction
    is not left open; with 200 it is committed. *)
Theorem send_all_or_nothing env s fromId (requestBody : option SendWalletRequestBody) :
  let o := serve (send_handler env fromId requestBody) s in
  (http_status o <> Some StatusOK -> db o.2 = s) /\
  (http_status o = Some StatusInternalServerError ->
   tx_status_of o.2 <> Some TxOpen) /\
  (http_status o = Some StatusOK -> tx_status_of o.2 = Some TxCommitted).
Proof.
  cbv zeta. split; [|split].
  - intros Hno. destruct (send_outcome env s fromId requestBody) as [[Hok _]|[_ Hdb]];
      [contradiction|exact Hdb].
  - destruct (send_cases env s fromId requestBody); cbn;
      first [discriminate | intros Hs; discriminate Hs].
  - intros Hok. destruct (send_outcome env s fromId requestBody)
      as [(_ & body & B & D & _ & _ & _ & _ & Htx & _)|[Hno _]];
      [exact Htx|contradiction].
Qed.

Lemma send_all_or_nothing_witness :
  let o := serve (send_handler exec_failing_env "X"
                    (Some (mkSendWalletRequestBody "Y" (NewFromInt 30)))) two_wallets in
  db o.2 = two_wallets /\ tx_status_of o.2 <> Some TxOpen.
Proof.
  pose proof (send_all_or_nothing exec_failing_env two_wallets "X"
                (Some (mkSendWalletRequestBody "Y" (NewFromInt 30)))) as (Hdb & Htx & _).
  split; [apply Hdb; discriminate|apply Htx; reflexivity].
Defined.

(** X3: a send changes no wallet but the two it names and never adds or
    removes one. *)
Theorem send_touches_two_wallets env s fromId (body : SendWalletRequestBody) :
  let o := serve (send_handler env fromId (Some body)) s in
  (forall id, is_Some (wallets (db o.2) !! id) <-> is_Some (wallets s !! id)) /\
  (forall id, id <> fromId -> id <> ID body ->
     wallets (db o.2) !! id = wallets s !! id).
Proof.
  cbv zeta. destruct (send_outcome env s fromId (Some body))
    as [(_ & body' & B & D & Hbody & _ & _ & _ & _ & ->)|[_ ->]];
    [|split; [tauto|reflexivity]].
  injection Hbody as <-. split.
  - intros id. rewrite send_statements_wallets, !lookup_alter_is_Some. tauto.
  - intros id H1 H2. apply send_statements_lookup_other; assumption.
Qed.

Lemma send_touches_two_wallets_witness :
  wallets (db (serve (send_handler plain_env "X"
                        (Some (mkSendWalletRequestBody "X" (NewFromInt 30)))) two_wallets).2)
    !! "Y"
  = wallets two_wallets !! "Y".
Proof.
  apply (proj2 (send_touches_two_wallets plain_env two_wallets "X"
                  (mkSendWalletRequestBody "X" (NewFromInt 30)))); discriminate.
Defined.

(** X4: a wallet can send an amount to itself exactly when the amount is
    strictly between minus its balance and its balance. *)
Theorem self_transfer_threshold env s id (A B : Decimal) :
  faultless env ->
  wallets s !! id = Some B ->
  (http_status (serve (send_handler env id (Some (mkSendWalletRequestBody id A))) s)
   = Some StatusOK
   <-> (- to_Q B < to_Q A)%Q /\ (to_Q A < to_Q B)%Q).
Proof.
  intros (Hb & He & Hc & _ & _ & _ & _ & _ & Hl) HB.
  pose proof (Hl SFrom) as Hf. pose proof (Hl STo) as Ht.
  assert (Hiff : validate B B A = true <-> (- to_Q B < to_Q A)%Q /\ (to_Q A < to_Q B)%Q).
  { rewrite validate_spec.
    rewrite (Qlt_minus_iff (to_Q A) (to_Q B)), (Qlt_minus_iff (- to_Q B) (to_Q A)).
    rewrite Qopp_opp. unfold Qminus. rewrite (Qplus_comm (to_Q A) (to_Q B)). tauto. }
  rewrite <- Hiff. destruct (validate B B A) eqn:Hv.
  - rewrite (send_committed _ _ _ _ _ _ _ Hb Hf HB Ht HB Hv He Hc). split; reflexivity.
  - rewrite (send_rejected _ _ _ _ _ _ _ Hb Hf HB Ht HB Hv). split; discriminate.
Qed.

Lemma self_transfer_threshold_witness :
  http_status (serve (send_handler plain_env "X"
                        (Some (mkSendWalletRequestBody "X" (NewFromInt (-99))))) two_wallets)
  = Some StatusOK.
Proof.
  apply (proj2 (self_transfer_threshold plain_env two_wallets "X"
                  (NewFromInt (-99)) (NewFromInt 100) plain_env_faultless eq_refl)).
  split; reflexivity.
Defined.

(** ** What holds of the store after any requests *)

Lemma empty_store_positive : balances_positive empty_store.
Proof. intros id b H. cbn in H. rewrite lookup_empty in H. discriminate. Qed.

Lemma empty_store_resolves : records_resolve empty_store.
Proof. intros t Ht. cbn in Ht. apply elem_of_nil in Ht. contradiction. Qed.

Lemma empty_store_ids : ids_well_formed empty_store.
Proof. intros id [b H]. cbn in H. rewrite lookup_empty in H. discriminate. Qed.

Lemma serve_all_keeps_when (Q : Env -> Prop) (P : Store -> Prop) :
  (forall env r s, Q env -> P s -> P (db (serve (handle env r) s).2)) ->
  forall reqs s, Forall (fun er => Q er.1) reqs -> P s -> P (serve_all reqs s).
Proof.
  intros Hkeep reqs. induction reqs as [|[env r] reqs IH]; intros s Hall Hs; [exact Hs|].
  apply Forall_cons in Hall. destruct Hall as [Hq Hall]. cbn [fst] in Hq.
  cbn [serve_all]. cbv zeta. pose proof (Hkeep env r s Hq Hs) as Hs'.
  destruct (serve (handle env r) s).1; try (apply IH; assumption). exact Hs'.
Qed.

Lemma sample_column_keeps_positive : column_keeps_positive plain_env.
Proof.
  intros d Hd. cbn. unfold sample_column.
  repeat (destruct (decide _); [reflexivity|]). exact Hd.
Qed.

Lemma sample_requests_keep_positive :
  Forall (fun er : Env * Request => column_keeps_positive er.1) sample_requests.
Proof. repeat constructor; exact sample_column_keeps_positive. Qed.

(** X5: the validator keeps every balance strictly positive only as far
    as the column does: where the column gives back a positive value for
    every positive value written to it, positive balances stay positive
    after any sequence of requests, whatever fails on the way; where it
    gives back 0 for 1e-400, a wallet of 100 that sends 100 less 1e-400 is
    left with a balance of 0. *)
Theorem balances_stay_positive :
  (forall (reqs : list (Env * Request)) s,
     Forall (fun er => column_keeps_positive er.1) reqs ->
     balances_positive s -> balances_positive (serve_all reqs s)) /\
  (let s' := serve_all
               [(underflow_env,
                 PostSend "X" (Some (mkSendWalletRequestBody "Y" almost_all)))]
               two_wallets in
   wallets s' !! "X" = Some (mkDecimal 0 0) /\ ~ balances_positive s').
Proof.
  split.
  - apply (serve_all_keeps_when column_keeps_positive balances_positive).
    intros env r s Hcol Hpos. apply request_keeps_positive; assumption.
  - cbv zeta.
    assert (H : wallets
                  (serve_all
                     [(underflow_env,
                       PostSend "X" (Some (mkSendWalletRequestBody "Y" almost_all)))]
                     two_wallets) !! "X" = Some (mkDecimal 0 0))
      by (vm_compute; reflexivity).
    split; [exact H|]. intros Hpos. specialize (Hpos _ _ H). discriminate.
Qed.

Lemma balances_stay_positive_witness :
  balances_positive (serve_all sample_requests empty_store).
Proof.
  apply (proj1 balances_stay_positive).
  - exact sample_requests_keep_positive.
  - exact empty_store_positive.
Defined.

(** X6: no record is orphaned: if author and sender of every record are
    wallets of the store, they are after any sequence of requests. *)
Theorem records_always_resolve (reqs : list (Env * Request)) s :
  records_resolve s -> records_resolve (serve_all reqs s).
Proof. apply serve_all_keeps. apply request_keeps_records. Qed.

Lemma records_always_resolve_witness :
  records_resolve (serve_all sample_requests empty_store).
Proof. apply records_always_resolve. exact empty_store_resolves. Defined.

(** X7: starting from the empty store, every wallet id the store ever holds
    is 6 symbols of the generator's alphabet. *)
Theorem ids_always_well_formed (reqs : list (Env * Request)) s :
  ids_well_formed s -> ids_well_formed (serve_all reqs s).
Proof. apply serve_all_keeps. apply request_keeps_ids. Qed.

Lemma ids_always_well_formed_witness :
  ids_well_formed (serve_all sample_requests empty_store).
Proof. apply ids_always_well_formed. exact empty_store_ids. Defined.

(** X8: nothing is ever deleted: after any sequence of requests every
    wallet is still there and the table of transactions has only been added
    to at its end. *)
Theorem store_only_grows (reqs : list (Env * Request)) s :
  store_grows s (serve_all reqs s).
Proof.
  revert s. induction reqs as [|[env r] reqs IH]; intros s; [apply store_grows_refl|].
  cbn [serve_all]. cbv zeta. pose proof (request_grows env r s) as Hstep.
  destruct (serve (handle env r) s).1;
    try (eapply store_grows_trans; [exact Hstep|apply IH]).
  exact Hstep.
Qed.
(** ** Creating wallets *)

(** X9: what wallet creation does, by what the generator and the insert
    give.  With an id that is free and an insert that goes through, it
    answers 201 with the id and 100, adds that one wallet with a balance of
    100 and leaves every other wallet and the transactions as they were.
    When the insert fails, for a taken id or for any other reason, the
    process ends with that error logged: nothing is answered and nothing
    stored.  When the generator gives an error the handler panics with it,
    and while the generator has not returned neither has the handler; the
    store is as before. *)
Theorem create_adds_one_wallet env s :
  let o := serve (create_handler env) s in
  let g := (GenerateRandomString env 6 (init_world s)).1 in
  (forall id,
     g = Next (id, None) -> Exec_err env = None -> wallets s !! id = None ->
     o.1 = Next tt /\
     response o.2 = Some (mkResponse StatusCreated (JCreated id 100)) /\
     db o.2 = mkStore (<[id := NewFromInt 100]> (wallets s)) (wallet_transactions s) /\
     (forall id' b, wallets s !! id' = Some b -> wallets (db o.2) !! id' = Some b)) /\
  (forall id e,
     g = Next (id, None) -> Exec_err env = Some e ->
     o.1 = Fatal e /\ http_status o = None /\ response o.2 = None /\
     log o.2 = [LErr (Some e)] /\ db o.2 = s) /\
  (forall id,
     g = Next (id, None) -> Exec_err env = None -> is_Some (wallets s !! id) ->
     o.1 = Fatal ErrConstraint /\ http_status o = None /\ response o.2 = None /\
     log o.2 = [LErr (Some ErrConstraint)] /\ db o.2 = s) /\
  (forall id e,
     g = Next (id, Some e) ->
     o.1 = Panic e /\ http_status o = Some StatusInternalServerError /\ db o.2 = s) /\
  (g = Spin -> o.1 = Spin /\ http_status o = None /\ db o.2 = s).
Proof.
  cbv zeta. unfold serve, create_handler, mbind, M_bind.
  destruct (GenerateRandomString env 6 (init_world s)) as [f w'] eqn:Hgen.
  pose proof (GenerateRandomString_frame _ _ _ _ _ Hgen) as Hframe.
  assert (Hdb : db w' = s) by (rewrite Hframe; reflexivity).
  assert (Hresp : response w' = None) by (rewrite Hframe; reflexivity).
  assert (Hlog : log w' = []) by (rewrite Hframe; reflexivity).
  cbn [fst]. split; [|split; [|split; [|split]]].
  - intros id -> Hexec Hfree. unfold db_Exec_insert, insert_wallet.
    rewrite Hexec, Hdb, Hfree. cbn. split; [reflexivity|]. split; [reflexivity|].
    split; [reflexivity|].
    intros id' b Hb. rewrite lookup_insert_ne; [exact Hb|congruence].
  - intros id e -> Hexec. unfold db_Exec_insert. rewrite Hexec. cbn.
    rewrite Hresp, Hlog, Hdb. repeat split.
  - intros id -> Hexec [b Htaken]. unfold db_Exec_insert, insert_wallet.
    rewrite Hexec, Hdb, Htaken. cbn. rewrite Hresp, Hlog, Hdb. repeat split.
  - intros id e ->. unfold panic. cbn. rewrite Hdb. repeat split.
  - intros ->. cbn. rewrite Hdb. repeat split.
Qed.

Lemma create_adds_one_wallet_witness :
  (let o := serve (create_handler plain_env) two_wallets in
   o.1 = Next tt /\
   response o.2 = Some (mkResponse StatusCreated (JCreated "012345" 100)) /\
   db o.2 = mkStore (<["012345" := NewFromInt 100]> (wallets two_wallets))
              (wallet_transactions two_wallets) /\
   (forall id' b, wallets two_wallets !! id' = Some b ->
                  wallets (db o.2) !! id' = Some b)) /\
  (let o := serve (create_handler insert_failing_env) two_wallets in
   o.1 = Fatal (ErrDriver "database is locked") /\ http_status o = None /\
   response o.2 = None /\
   log o.2 = [LErr (Some (ErrDriver "database is locked"))] /\
   db o.2 = two_wallets) /\
  (let o := serve (create_handler plain_env) taken_store in
   o.1 = Fatal ErrConstraint /\ http_status o = None /\ response o.2 = None /\
   log o.2 = [LErr (Some ErrConstraint)] /\ db o.2 = taken_store) /\
  (let o := serve (create_handler short_rand_env) two_wallets in
   o.1 = Panic ErrRand /\ http_status o = Some StatusInternalServerError /\
   db o.2 = two_wallets) /\
  (let o := serve (create_handler stuck_rand_env) two_wallets in
   o.1 = Spin /\ http_status o = None /\ db o.2 = two_wallets).
Proof.
  split; [|split; [|split; [|split]]].
  - apply (proj1 (create_adds_one_wallet plain_env two_wallets) "012345");
      reflexivity.
  - apply (proj1 (proj2 (create_adds_one_wallet insert_failing_env two_wallets))
             "012345"); reflexivity.
  - apply (proj1 (proj2 (proj2 (create_adds_one_wallet plain_env taken_store)))
             "012345"); [reflexivity|reflexivity|eexists; reflexivity].
  - apply (proj1 (proj2 (proj2 (proj2
             (create_adds_one_wallet short_rand_env two_wallets)))) EmptyString).
    reflexivity.
  - apply (proj2 (proj2 (proj2 (proj2
             (create_adds_one_wallet stuck_rand_env two_wallets))))).
    reflexivity.
Defined.

(** X10: a wallet that was just created can be read: GET answers 200 with
    its id and the balance 100, and, in a store whose records resolve, its
    history is the empty sequence. *)
Theorem created_wallet_readable env env' s id :
  response (serve (create_handler env) s).2
  = Some (mkResponse StatusCreated (JCreated id 100)) ->
  faultless env' ->
  records_resolve s ->
  let s' := db (serve (create_handler env) s).2 in
  serve (get_handler env' id) s'
  = (Next tt, mkWorld s' None []
                (Some (mkResponse StatusOK (JWallet id (NewFromInt 100)))) 0) /\
  serve (history_handler env' id) s'
  = (Next tt, mkWorld s' None [] (Some (mkResponse StatusOK (JRows []))) 0).
Proof.
  intros Hresp Hok Hres. cbv zeta.
  destruct (create_outcome env s)
    as [(id' & _ & Hr & Hfree & _ & Hdb & _)
       | [(_ & Hr & _) | [(id' & e & _ & Hr & _) | (_ & Hr & _)]]];
    rewrite Hr in Hresp; try discriminate.
  injection Hresp as <-. rewrite Hdb.
  set (s' := mkStore _ _).
  assert (Hid : wallets s' !! id' = Some (NewFromInt 100)) by apply lookup_insert_eq.
  split.
  - destruct (get_wallet_read_only_cases env' s' id' (NewFromInt 100)) as [H _].
    apply H; [apply Hok|exact Hid].
  - assert (Hnil : select_transactions s' id' = []).
    { apply elem_of_nil_inv. intros t Ht. unfold select_transactions in Ht.
      apply list_elem_of_filter in Ht. destruct Ht as [Hid' Hin].
      destruct (Hres t Hin) as [[b1 H1] [b2 H2]].
      destruct Hid' as [<-|<-]; congruence. }
    destruct Hok as (_ & _ & _ & Hq & Hrec & _).
    rewrite (history_found env' s' id' (NewFromInt 100) Hq Hrec); [|rewrite Hnil; cbn; lia|exact Hid].
    rewrite Hnil. reflexivity.
Qed.

Lemma created_wallet_readable_witness :
  let s' := db (serve (create_handler plain_env) empty_store).2 in
  serve (get_handler plain_env "012345") s'
  = (Next tt, mkWorld s' None []
                (Some (mkResponse StatusOK (JWallet "012345" (NewFromInt 100)))) 0) /\
  serve (history_handler plain_env "012345") s'
  = (Next tt, mkWorld s' None [] (Some (mkResponse StatusOK (JRows []))) 0).
Proof.
  apply (created_wallet_readable plain_env plain_env empty_store "012345").
  - reflexivity.
  - exact plain_env_faultless.
  - exact empty_store_resolves.
Defined.

(** ** The generators *)

Lemma mask_six_lt (x : N) : (N.land x 63 < 64)%N.
Proof.
  change 63%N with (N.ones 6). rewrite N.land_ones.
  apply N.mod_lt. discriminate.
Qed.

Lemma SetBytes_one_masked (x : N) :
  SetBytes (mask_first 6 [x]) = N.land x 63.
Proof. unfold SetBytes, mask_first. cbn [fold_left]. change (N.ones 6) with 63%N. lia. Qed.

Lemma rand_fill_one env pos :
  rand_fill env 1 pos = (fun raw => [(raw mod 256)%N]) <$> rand_Reader env pos.
Proof. cbn [rand_fill]. destruct (rand_Reader env pos); reflexivity. Qed.

(** A byte whose low six bits are below 63 is accepted. *)
Lemma rand_Int_loop_accept env fuel pos raw :
  rand_Reader env pos = Some raw ->
  N.land (raw mod 256) 63 <> 63%N ->
  rand_Int_loop env (S fuel) 63 1 6 pos
  = (Next (inl (N.land (raw mod 256) 63)), (pos + 1)%nat).
Proof.
  intros Hr Hacc. cbn [rand_Int_loop]. rewrite rand_fill_one, Hr. cbn [fmap option_fmap option_map].
  cbv zeta. rewrite SetBytes_one_masked.
  pose proof (mask_six_lt (raw mod 256)).
  destruct (N.ltb_spec (N.land (raw mod 256) 63) 63); [reflexivity|lia].
Qed.

(** A byte whose low six bits are 63 is dropped and the next one read. *)
Lemma rand_Int_loop_reject env fuel pos raw :
  rand_Reader env pos = Some raw ->
  N.land (raw mod 256) 63 = 63%N ->
  rand_Int_loop env (S fuel) 63 1 6 pos = rand_Int_loop env fuel 63 1 6 (pos + 1)%nat.
Proof.
  intros Hr Hrej. cbn [rand_Int_loop]. rewrite rand_fill_one, Hr. cbn [fmap option_fmap option_map].
  cbv zeta. rewrite SetBytes_one_masked, Hrej. reflexivity.
Qed.

Lemma rand_Int_loop_fail env fuel pos :
  rand_Reader env pos = None ->
  rand_Int_loop env (S fuel) 63 1 6 pos = (Next (inr ErrRand), (pos + 1)%nat).
Proof.
  intros Hr. cbn [rand_Int_loop]. rewrite rand_fill_one, Hr. reflexivity.
Qed.

Lemma rand_Int_loop_stuck env fuel pos :
  (forall p, exists raw, rand_Reader env p = Some raw /\ N.land (raw mod 256) 63 = 63%N) ->
  (rand_Int_loop env fuel 63 1 6 pos).1 = Spin.
Proof.
  intros Hsrc. revert pos. induction fuel as [|fuel IH]; intros pos; [reflexivity|].
  destruct (Hsrc pos) as (raw & Hr & Hrej).
  rewrite (rand_Int_loop_reject env fuel pos raw Hr Hrej). apply IH.
Qed.

Lemma set_rand_pos_twice p q w : set_rand_pos p (set_rand_pos q w) = set_rand_pos p w.
Proof. destruct w; reflexivity. Qed.

Lemma letter_of_accepted raw :
  N.land (raw mod 256) 63 <> 63%N ->
  String.get (N.to_nat (N.land (raw mod 256) 63)) letters = Some (letter_of raw).
Proof.
  intros Hacc. unfold letter_of.
  destruct (String_get_lt letters (N.to_nat (N.land (raw mod 256) 63))) as [c Hc].
  { rewrite letters_length. pose proof (mask_six_lt (raw mod 256)). lia. }
  rewrite Hc. reflexivity.
Qed.

(** With every byte accepted, one byte is read for each symbol. *)
Lemma GenerateRandomString_loop_accepts env (raws : list N) i ret w :
  (0 < rand_fuel env)%nat ->
  length ret = (i + length raws)%nat ->
  (forall j raw, raws !! j = Some raw ->
     rand_Reader env (rand_pos w + j) = Some raw /\ N.land (raw mod 256) 63 <> 63%N) ->
  GenerateRandomString_loop env (length raws) i ret w
  = (Next (string_of_list_ascii (take i ret ++ (letter_of <$> raws)), None),
     set_rand_pos (rand_pos w + length raws) w).
Proof.
  intros Hfuel. revert i ret w.
  induction raws as [|raw raws IH]; intros i ret w Hlen Hsrc.
  - cbn [length GenerateRandomString_loop fmap list_fmap]. cbn in Hlen.
    rewrite app_nil_r, take_ge by lia. rewrite Nat.add_0_r.
    destruct w; reflexivity.
  - cbn [length GenerateRandomString_loop]. unfold mbind, M_bind.
    rewrite rand_Int_letters.
    destruct (rand_fuel env) as [|fuel] eqn:Hf; [lia|].
    destruct (Hsrc 0%nat raw eq_refl) as [Hr Hacc]. rewrite Nat.add_0_r in Hr.
    rewrite (rand_Int_loop_accept env fuel _ raw Hr Hacc).
    rewrite (letter_of_accepted raw Hacc).
    cbn [length] in Hlen.
    rewrite (IH (S i) (<[i := letter_of raw]> ret) (set_rand_pos (rand_pos w + 1) w)).
    + rewrite set_rand_pos_twice.
      rewrite (take_S_r _ _ (letter_of raw)) by (apply list_lookup_insert_eq; lia).
      rewrite take_insert_ge by lia. rewrite <- app_assoc. cbn [fmap list_fmap app].
      replace (rand_pos (set_rand_pos (rand_pos w + 1) w) + length raws)%nat
        with (rand_pos w + S (length raws))%nat by (destruct w; cbn; lia).
      reflexivity.
    + rewrite length_insert. lia.
    + intros j raw' Hj.
      replace (rand_pos (set_rand_pos (rand_pos w + 1) w) + j)%nat
        with (rand_pos w + S j)%nat by (destruct w; cbn; lia).
      apply Hsrc. exact Hj.
Qed.

(** At the first read that fails the loop stops. *)
Lemma GenerateRandomString_loop_fails env (raws : list N) k i ret w :
  (0 < rand_fuel env)%nat ->
  (length raws < k)%nat ->
  (forall j raw, raws !! j = Some raw ->
     rand_Reader env (rand_pos w + j) = Some raw /\ N.land (raw mod 256) 63 <> 63%N) ->
  rand_Reader env (rand_pos w + length raws) = None ->
  GenerateRandomString_loop env k i ret w
  = (Next (EmptyString, Some ErrRand), set_rand_pos (rand_pos w + S (length raws)) w).
Proof.
  intros Hfuel. revert k i ret w.
  induction raws as [|raw raws IH]; intros k i ret w Hk Hsrc Hfail;
    (destruct k as [|k]; [cbn in Hk; lia|]);
    cbn [length GenerateRandomString_loop] in *; unfold mbind, M_bind;
    rewrite rand_Int_letters;
    (destruct (rand_fuel env) as [|fuel] eqn:Hf; [lia|]).
  - rewrite Nat.add_0_r in Hfail. rewrite (rand_Int_loop_fail env fuel _ Hfail).
    reflexivity.
  - destruct (Hsrc 0%nat raw eq_refl) as [Hr Hacc]. rewrite Nat.add_0_r in Hr.
    rewrite (rand_Int_loop_accept env fuel _ raw Hr Hacc).
    rewrite (letter_of_accepted raw Hacc).
    rewrite (IH k (S i) (<[i := letter_of raw]> ret) (set_rand_pos (rand_pos w + 1) w)).
    + rewrite set_rand_pos_twice.
      replace (rand_pos (set_rand_pos (rand_pos w + 1) w) + S (length raws))%nat
        with (rand_pos w + S (S (length raws)))%nat by (destruct w; cbn; lia).
      reflexivity.
    + lia.
    + intros j raw' Hj.
      replace (rand_pos (set_rand_pos (rand_pos w + 1) w) + j)%nat
        with (rand_pos w + S j)%nat by (destruct w; cbn; lia).
      apply Hsrc. exact Hj.
    + replace (rand_pos (set_rand_pos (rand_pos w + 1) w) + length raws)%nat
        with (rand_pos w + S (length raws))%nat by (destruct w; cbn; lia).
      exact Hfail.
Qed.

(** X11: [GenerateRandomString n], for an [n] that is a Go int.  A
    negative [n] panics.  Otherwise one byte is read for each symbol as long
    as the low six bits of every byte are below 63: the string is the [n]
    symbols those bits select, and all are of the alphabet.  A byte whose
    low six bits are 63 is dropped and another one read in its place (the
    bytes 63, 64, 5 give "05" after three reads), so a source that yields
    only such bytes keeps the generator from ever returning.  At the first
    read that fails the generator stops and gives the empty string with the
    error. *)
Theorem GenerateRandomString_reads env (n : Z) w :
  (n < 0 -> GenerateRandomString env n w = (Panic ErrMakeSlice, w)) /\
  (forall raws : list N,
     (0 < rand_fuel env)%nat ->
     n = Z.of_nat (length raws) ->
     (forall j raw, raws !! j = Some raw ->
        rand_Reader env (rand_pos w + j) = Some raw /\
        N.land (raw mod 256) 63 <> 63%N) ->
     GenerateRandomString env n w
     = (Next (string_of_list_ascii (letter_of <$> raws), None),
        set_rand_pos (rand_pos w + length raws) w) /\
     Forall (fun c => c ∈ list_ascii_of_string letters) (letter_of <$> raws)) /\
  (forall raws : list N,
     (0 < rand_fuel env)%nat ->
     Z.of_nat (length raws) < n ->
     (forall j raw, raws !! j = Some raw ->
        rand_Reader env (rand_pos w + j) = Some raw /\
        N.land (raw mod 256) 63 <> 63%N) ->
     rand_Reader env (rand_pos w + length raws) = None ->
     GenerateRandomString env n w
     = (Next (EmptyString, Some ErrRand),
        set_rand_pos (rand_pos w + S (length raws)) w)) /\
  (0 < n ->
   (forall p, exists raw,
      rand_Reader env p = Some raw /\ N.land (raw mod 256) 63 = 63%N) ->
   (GenerateRandomString env n w).1 = Spin) /\
  GenerateRandomString redraw_env 2 (init_world empty_store)
  = (Next ("05"%string, None), set_rand_pos 3 (init_world empty_store)).
Proof.
  split; [|split; [|split; [|split]]].
  - intros Hn. unfold GenerateRandomString.
    destruct (Z.ltb_spec n 0); [reflexivity|lia].
  - intros raws Hfuel -> Hsrc. split.
    + unfold GenerateRandomString.
      destruct (Z.ltb_spec (Z.of_nat (length raws)) 0); [lia|].
      rewrite Nat2Z.id.
      rewrite (GenerateRandomString_loop_accepts env raws 0 _ w Hfuel).
      * reflexivity.
      * rewrite length_replicate. reflexivity.
      * exact Hsrc.
    + apply Forall_lookup. intros j c Hc. rewrite list_lookup_fmap in Hc.
      destruct (raws !! j) as [raw|] eqn:Hraw; [|discriminate].
      injection Hc as <-. destruct (Hsrc j raw Hraw) as [_ Hacc].
      exact (String_get_elem _ _ _ (letter_of_accepted raw Hacc)).
  - intros raws Hfuel Hn Hsrc Hfail. unfold GenerateRandomString.
    destruct (Z.ltb_spec n 0); [lia|].
    apply GenerateRandomString_loop_fails; [exact Hfuel|lia|exact Hsrc|exact Hfail].
  - intros Hn Hsrc. unfold GenerateRandomString.
    destruct (Z.ltb_spec n 0); [lia|].
    destruct (Z.to_nat n) as [|k] eqn:Hk; [lia|].
    cbn [GenerateRandomString_loop]. unfold mbind, M_bind.
    rewrite rand_Int_letters.
    pose proof (rand_Int_loop_stuck env (rand_fuel env) (rand_pos w) Hsrc) as Hspin.
    destruct (rand_Int_loop env (rand_fuel env) 63 1 6 (rand_pos w)) as [f pos].
    cbn [fst] in Hspin. subst f. reflexivity.
  - reflexivity.
Qed.

Lemma GenerateRandomString_reads_witness :
  GenerateRandomString plain_env (-1) (init_world empty_store)
  = (Panic ErrMakeSlice, init_world empty_store) /\
  (GenerateRandomString plain_env 4 (init_world empty_store)
   = (Next (string_of_list_ascii (letter_of <$> [0; 1; 2; 3]%N), None),
      set_rand_pos 4 (init_world empty_store)) /\
   Forall (fun c => c ∈ list_ascii_of_string letters) (letter_of <$> [0; 1; 2; 3]%N)) /\
  GenerateRandomString short_rand_env 6 (init_world empty_store)
  = (Next (EmptyString, Some ErrRand), set_rand_pos 4 (init_world empty_store)) /\
  (GenerateRandomString stuck_rand_env 6 (init_world empty_store)).1 = Spin.
Proof.
  split; [|split; [|split]].
  - apply (proj1 (GenerateRandomString_reads plain_env (-1) (init_world empty_store))).
    lia.
  - apply (proj1 (proj2 (GenerateRandomString_reads plain_env 4 (init_world empty_store)))
             [0; 1; 2; 3]%N).
    + cbn. lia.
    + reflexivity.
    + intros j raw Hj.
      destruct j as [|[|[|[|j]]]]; cbn in Hj; try discriminate;
        injection Hj as <-; (split; [reflexivity|discriminate]).
  - apply (proj1 (proj2 (proj2
             (GenerateRandomString_reads short_rand_env 6 (init_world empty_store))))
             [0; 1; 2]%N).
    + cbn. lia.
    + cbn. lia.
    + intros j raw Hj.
      destruct j as [|[|[|j]]]; cbn in Hj; try discriminate;
        injection Hj as <-; (split; [reflexivity|discriminate]).
    + reflexivity.
  - apply (proj1 (proj2 (proj2 (proj2
             (GenerateRandomString_reads stuck_rand_env 6 (init_world empty_store)))))).
    + lia.
    + intros p. exists 63%N. split; reflexivity.
Defined.

(** ** Transfers and the history *)

(** X12: a committed transfer shows in the history of both wallets: each
    history is what it was before, followed by the record of the transfer,
    from the source to the destination, with the amount as the decimal
    column renders it and the time of the transfer in RFC 3339. *)
Theorem transfer_shows_in_history env env' s fromId toId (A B D : Decimal) :
  faultless env -> faultless env' ->
  wallets s !! fromId = Some B ->
  wallets s !! toId = Some D ->
  validate B D A = true ->
  let s' := db (serve (send_handler env fromId
                         (Some (mkSendWalletRequestBody toId A))) s).2 in
  let dto := fun t => mkWalletTransactionDTO (wt_AuthorId t) (wt_SenderId t)
                        (wt_Balance t) (RFC3339 env' (Time (wt_Date t))) in
  let new := mkWalletTransactionDTO fromId toId (Column env A)
               (RFC3339 env' (Now env)) in
  response (serve (history_handler env' fromId) s').2
  = Some (mkResponse StatusOK
            (JRows ((dto <$> select_transactions s fromId) ++ [new]))) /\
  response (serve (history_handler env' toId) s').2
  = Some (mkResponse StatusOK
            (JRows ((dto <$> select_transactions s toId) ++ [new]))).
Proof.
  intros (Hb & He & Hc & _ & _ & _ & _ & _ & Hl) (_ & _ & _ & Hq' & Hr' & Hn' & Hs' & _) HB HD Hv.
  cbv zeta.
  rewrite (send_committed _ _ _ _ _ _ _ Hb (Hl SFrom) HB (Hl STo) HD Hv He Hc).
  cbn [snd db].
  set (s' := send_statements _ _ _ _ _ _ _ _).
  assert (Hsel : forall id, id = fromId \/ id = toId ->
            select_transactions s' id
            = select_transactions s id
                ++ [mkWalletTransaction fromId toId (Column env A)
                      (mkNullTime (Now env) true)]).
  { intros id Hid. unfold select_transactions, s'.
    rewrite send_statements_transactions, filter_app. f_equal.
    apply filter_singleton_True; [exact []|]. cbn. destruct Hid; subst; tauto. }
  assert (Hfrom : is_Some (wallets s' !! fromId)).
  { unfold s'. rewrite send_statements_wallets, !lookup_alter_is_Some, HB. eexists; reflexivity. }
  assert (Hto : is_Some (wallets s' !! toId)).
  { unfold s'. rewrite send_statements_wallets, !lookup_alter_is_Some, HD. eexists; reflexivity. }
  destruct Hfrom as [b Hfrom], Hto as [d Hto].
  rewrite (history_found env' s' fromId b Hq' Hr' (fun j _ => conj (Hn' j) (Hs' j)) Hfrom).
  rewrite (history_found env' s' toId d Hq' Hr' (fun j _ => conj (Hn' j) (Hs' j)) Hto).
  cbn [snd response].
  rewrite !Hsel by tauto. rewrite !fmap_app. split; reflexivity.
Qed.

Lemma transfer_shows_in_history_witness :
  let s' := db (serve (send_handler plain_env "X"
                         (Some (mkSendWalletRequestBody "Y" long_amount))) two_wallets).2 in
  let new := mkWalletTransactionDTO "X" "Y" (mkDecimal 12345678901234568 (-17))
               "2023-11-14T22:13:20Z" in
  response (serve (history_handler plain_env "X") s').2
  = Some (mkResponse StatusOK (JRows [new])) /\
  response (serve (history_handler plain_env "Y") s').2
  = Some (mkResponse StatusOK (JRows [new])).
Proof.
  apply (transfer_shows_in_history plain_env plain_env two_wallets "X" "Y"
           long_amount (NewFromInt 100) (NewFromInt 100)).
  - exact plain_env_faultless.
  - exact plain_env_faultless.
  - reflexivity.
  - reflexivity.
  - reflexivity.
Defined.

(** X13: the two reading handlers answer 200 or 404 and nothing else:
    GET wallet answers 404 when the wallet is unknown or its lookup fails,
    and 200 otherwise; the history answers 404 when the wallet is unknown,
    when its lookup or the query of the records fails, or when a record
    the loop comes to cannot be scanned, and 200 otherwise. *)
Theorem read_handlers_status env s id :
  http_status (serve (get_handler env id) s)
  = Some match QueryRow_err env, wallets s !! id with
         | None, Some _ => StatusOK
         | _, _ => StatusNotFound
         end /\
  (http_status (serve (history_handler env id) s) = Some StatusOK \/
   http_status (serve (history_handler env id) s) = Some StatusNotFound) /\
  (http_status (serve (history_handler env id) s) = Some StatusNotFound <->
   wallets s !! id = None \/ is_Some (QueryRow_err env) \/ is_Some (Query_err env) \/
   exists k, (k < length (select_transactions s id))%nat /\
     (forall j, (j < k)%nat -> Next_err env j = None /\ Scan_err env j = None) /\
     Next_err env k = None /\ is_Some (Scan_err env k)).
Proof.
  split; [|split].
  - unfold_handlers. destruct (QueryRow_err env); [reflexivity|]. cbn.
    destruct (wallets s !! id); reflexivity.
  - destruct (history_cases env s id) as [(e & -> & _)|(k & -> & _)];
      [right|left]; reflexivity.
  - apply history_not_found_iff.
Qed.

(** ** The goroutines, whatever the schedule *)

Lemma returned_stays env fromId toId amount s s' f :
  handler s = HReturned f ->
  step env fromId toId amount s s' ->
  handler s' = HReturned f /\ world s' = world s.
Proof.
  intros Hh Hstep.
  destruct Hstep as [sd id s Hl | sd r s Hl Hroom
    | sd r s h' w' Hl Hbuf Hrecv | sd r rest s h' w' Hbuf Hrecv].
  - destruct sd; split; assumption || reflexivity.
  - destruct sd; split; assumption || reflexivity.
  - unfold receive in Hrecv. rewrite Hh in Hrecv. discriminate.
  - unfold receive in Hrecv. rewrite Hh in Hrecv. discriminate.
Qed.

(** X14: the outcome of a send does not depend on how the handler and its
    two loaders are scheduled: in every state they can reach in which the
    handler has returned, what it returned, answered, logged and did to the
    transaction is what [send_join] gives, and nothing the loaders do
    afterwards changes it. *)
Theorem schedule_independent env fromId toId amount w0 s f :
  rtc (step env fromId toId amount) (spawn fromId toId w0) s ->
  handler s = HReturned f ->
  (f, world s) = send_join env fromId toId amount w0 /\
  (forall s', rtc (step env fromId toId amount) s s' ->
              handler s' = HReturned f /\ world s' = world s).
Proof.
  intros Hrun Hh. split; [exact (goroutines_agree _ _ _ _ _ _ _ Hrun Hh)|].
  intros s' Hrun'. revert s'  Hrun'.
  apply (rtc_ind_r (fun s' => handler s' = HReturned f /\ world s' = world s) s).
  - split; [exact Hh|reflexivity].
  - intros y z _ Hstep [Hy Hw].
    destruct (returned_stays _ _ _ _ _ _ _ Hy Hstep) as [Hz Hw'].
    split; [exact Hz|congruence].
Qed.

Lemma schedule_independent_witness :
  (Next tt, world delivered_state)
  = send_join plain_env "X" "Y" (NewFromInt 30) spawned_world.
Proof.
  apply (proj1 (schedule_independent plain_env "X" "Y" (NewFromInt 30) spawned_world
                  delivered_state (Next tt) delivered_run eq_refl)).
Defined.

(** X15: whenever the source load fails, the destination loader never
    returns: in no state that can be reached has it got past its send, and
    when nothing moves any more it stands at the send; such a state is
    always reached. *)
Theorem abandoned_loader_blocked env fromId toId amount w0 e :
  Err (tx_QueryRow_Scan (TxQueryRow_err env SFrom) (tx w0) fromId) = Some e ->
  (forall s, rtc (step env fromId toId amount) (spawn fromId toId w0) s ->
             ldTo s <> LDone) /\
  (forall s, rtc (step env fromId toId amount) (spawn fromId toId w0) s ->
             terminal env fromId toId amount s ->
             exists r, ldTo s = LSend r) /\
  (exists s, rtc (step env fromId toId amount) (spawn fromId toId w0) s /\
             terminal env fromId toId amount s).
Proof.
  intros He. split; [|split].
  - intros s Hrun Hdone.
    destruct (delivered_in_order _ _ _ _ _ _ Hrun Hdone) as [_ Hnone]. congruence.
  - intros s Hrun Hterm. pose proof (reached_run _ _ _ _ _ _ Hrun) as Hreached.
    destruct (reached_terminal _ _ _ _ _ _ Hreached Hterm) as [f Hh].
    destruct Hreached as [_ Hinv]. rewrite Hh in Hinv.
    destruct Hinv as (_ & _ & _ & Herr).
    destruct Herr as [Ht|Ht]; [congruence| |exact Ht].
    exfalso. exact (Hterm _ (step_query env fromId toId amount STo toId s Ht)).
  - apply (reached_ends env fromId toId amount w0 6); [reflexivity|apply reached_spawn].
Qed.

Lemma abandoned_loader_blocked_witness : ldTo abandoned_state <> LDone.
Proof.
  apply (proj1 (abandoned_loader_blocked plain_env "Z" "Y" (NewFromInt 30)
                  spawned_world ErrNoRows eq_refl) abandoned_state).
  exact abandoned_run.
Defined.

(** ** Random bytes and their URL-safe encoding *)

Lemma rand_fill_Some env (k pos : nat) :
  (forall j, (j < k)%nat -> is_Some (rand_Reader env (pos + j))) ->
  exists b, rand_fill env k pos = Some b /\ length b = k /\
            Forall (fun x => (x < 256)%N) b.
Proof.
  revert pos. induction k as [|k IH]; intros pos Hsrc.
  - exists []. repeat split. constructor.
  - cbn [rand_fill]. destruct (Hsrc 0%nat ltac:(lia)) as [raw Hraw].
    rewrite Nat.add_0_r in Hraw. rewrite Hraw.
    destruct (IH (S pos)) as (b & Hb & Hlen & Hall).
    { intros j Hj. replace (S pos + j)%nat with (pos + S j)%nat by lia.
      apply Hsrc. lia. }
    rewrite Hb. exists ((raw mod 256)%N :: b). cbn. repeat split.
    + rewrite Hlen. reflexivity.
    + constructor; [|exact Hall]. apply N.mod_upper_bound. discriminate.
Qed.

Lemma rand_fill_None env (k pos j : nat) :
  (j < k)%nat -> rand_Reader env (pos + j) = None -> rand_fill env k pos = None.
Proof.
  revert pos j. induction k as [|k IH]; intros pos j Hj Hfail; [lia|].
  cbn [rand_fill]. destruct j as [|j].
  - rewrite Nat.add_0_r in Hfail. rewrite Hfail. reflexivity.
  - destruct (rand_Reader env pos); [|reflexivity].
    rewrite (IH (S pos) j); [reflexivity|lia|].
    replace (S pos + j)%nat with (pos + S j)%nat by lia. exact Hfail.
Qed.

(** X16: [GenerateRandomBytes n], for an [n] that is a Go int, panics
    when [n] is negative; otherwise it gives exactly [n] bytes when the
    random source can be read, and no bytes at all, with the error, when it
    cannot. *)
Theorem GenerateRandomBytes_all_or_nothing env (n : Z) w :
  (n < 0 -> GenerateRandomBytes env n w = (Panic ErrMakeSlice, w)) /\
  (0 <= n ->
   (forall j, (j < Z.to_nat n)%nat -> is_Some (rand_Reader env (rand_pos w + j))) ->
   exists b,
     GenerateRandomBytes env n w
     = (Next (b, None), set_rand_pos (rand_pos w + Z.to_nat n) w) /\
     length b = Z.to_nat n /\ Forall (fun x => (x < 256)%N) b) /\
  (forall j, (j < Z.to_nat n)%nat -> rand_Reader env (rand_pos w + j) = None ->
     GenerateRandomBytes env n w
     = (Next ([], Some ErrRand), set_rand_pos (rand_pos w + Z.to_nat n) w)).
Proof.
  unfold GenerateRandomBytes, rand_Read, mbind, M_bind.
  destruct (Z.ltb_spec n 0) as [Hneg|Hpos]; (split; [|split]).
  - intros _. reflexivity.
  - intros Hn. lia.
  - intros j Hj. lia.
  - intros Hn. lia.
  - intros _ Hsrc.
    destruct (rand_fill_Some env (Z.to_nat n) (rand_pos w) Hsrc) as (b & Hb & Hlen & Hall).
    rewrite Hb. exists b. repeat split; assumption.
  - intros j Hj Hfail.
    rewrite (rand_fill_None env (Z.to_nat n) (rand_pos w) j Hj Hfail). reflexivity.
Qed.

Lemma GenerateRandomBytes_all_or_nothing_witness :
  GenerateRandomBytes plain_env (-1) (init_world empty_store)
  = (Panic ErrMakeSlice, init_world empty_store) /\
  (exists b,
     GenerateRandomBytes plain_env 5 (init_world empty_store)
     = (Next (b, None), set_rand_pos 5 (init_world empty_store)) /\
     length b = 5%nat /\ Forall (fun x => (x < 256)%N) b) /\
  GenerateRandomBytes short_rand_env 5 (init_world empty_store)
  = (Next ([], Some ErrRand), set_rand_pos 5 (init_world empty_store)).
Proof.
  split; [|split].
  - apply (proj1 (GenerateRandomBytes_all_or_nothing plain_env (-1)
                    (init_world empty_store))). lia.
  - apply (proj1 (proj2 (GenerateRandomBytes_all_or_nothing plain_env 5
                           (init_world empty_store)))).
    + lia.
    + intros j _. eexists. reflexivity.
  - apply (proj2 (proj2 (GenerateRandomBytes_all_or_nothing short_rand_env 5
                           (init_world empty_store))) 3%nat).
    + cbn. lia.
    + reflexivity.
Defined.

Lemma list_ind3 {A} (P : list A -> Prop) :
  P [] -> (forall a, P [a]) -> (forall a b, P [a; b]) ->
  (forall a b c l, P l -> P (a :: b :: c :: l)) ->
  forall l, P l.
Proof.
  intros H0 H1 H2 H3.
  assert (Hall : forall l, P l /\ (forall a, P (a :: l)) /\ (forall a b, P (a :: b :: l))).
  { induction l as [|x l (IH0 & IH1 & IH2)].
    - repeat split; auto.
    - repeat split; auto. }
  intros l. apply Hall.
Qed.

Lemma encode_char_symbol (v : N) : encode_char v ∈ list_ascii_of_string encodeURL.
Proof.
  unfold encode_char.
  destruct (String_get_lt encodeURL (N.to_nat (N.land v 63))) as [c Hc].
  { change 63%N with (N.ones 6). rewrite N.land_ones.
    pose proof (N.mod_upper_bound v (2 ^ 6) ltac:(discriminate)) as Hlt.
    change (String.length encodeURL) with 64%nat.
    change (2 ^ 6)%N with 64%N in *. lia. }
  rewrite Hc. exact (String_get_elem _ _ _ Hc).
Qed.

Lemma EncodeToString_length (src : list N) :
  String.length (EncodeToString src) = (4 * ((length src + 2) / 3))%nat.
Proof.
  induction src as [|a|a b|a b c l IH] using list_ind3; try reflexivity.
  cbn [EncodeToString String.length length]. cbv zeta.
  cbn [String.length]. rewrite IH.
  replace (S (S (S (length l))) + 2)%nat with ((length l + 2) + 1 * 3)%nat by lia.
  rewrite Nat.div_add by discriminate. lia.
Qed.

Lemma EncodeToString_symbols (src : list N) :
  Forall (fun c => c ∈ list_ascii_of_string encodeURL \/ c = "="%char)
    (list_ascii_of_string (EncodeToString src)).
Proof.
  induction src as [|a|a b|a b c l IH] using list_ind3;
    cbn [EncodeToString list_ascii_of_string]; cbv zeta;
    repeat (constructor; [first [left; apply encode_char_symbol | right; reflexivity]|]);
    first [exact IH | constructor].
Qed.

(** X17: [GenerateRandomStringURLSafe n], for an [n] that is a Go int,
    panics when [n] is negative; otherwise it gives, when the random source
    can be read, a string of [4 * ceil(n / 3)] symbols, each of the URL-safe
    base64 alphabet or the padding [=]; when it cannot, the empty string
    together with the error. *)
Theorem GenerateRandomStringURLSafe_shape env (n : Z) w :
  (n < 0 -> GenerateRandomStringURLSafe env n w = (Panic ErrMakeSlice, w)) /\
  (0 <= n ->
   (forall j, (j < Z.to_nat n)%nat -> is_Some (rand_Reader env (rand_pos w + j))) ->
   exists str,
     GenerateRandomStringURLSafe env n w
     = (Next (str, None), set_rand_pos (rand_pos w + Z.to_nat n) w) /\
     String.length str = (4 * ((Z.to_nat n + 2) / 3))%nat /\
     Forall (fun c => c ∈ list_ascii_of_string encodeURL \/ c = "="%char)
       (list_ascii_of_string str)) /\
  (forall j, (j < Z.to_nat n)%nat -> rand_Reader env (rand_pos w + j) = None ->
     GenerateRandomStringURLSafe env n w
     = (Next (EmptyString, Some ErrRand), set_rand_pos (rand_pos w + Z.to_nat n) w)).
Proof.
  unfold GenerateRandomStringURLSafe, GenerateRandomBytes, rand_Read, mbind, M_bind.
  destruct (Z.ltb_spec n 0) as [Hneg|Hpos]; (split; [|split]).
  - intros _. reflexivity.
  - intros Hn. lia.
  - intros j Hj. lia.
  - intros Hn. lia.
  - intros _ Hsrc.
    destruct (rand_fill_Some env (Z.to_nat n) (rand_pos w) Hsrc) as (b & Hb & Hlen & _).
    rewrite Hb. exists (EncodeToString b). split; [reflexivity|].
    split; [rewrite EncodeToString_length, Hlen; reflexivity|apply EncodeToString_symbols].
  - intros j Hj Hfail.
    rewrite (rand_fill_None env (Z.to_nat n) (rand_pos w) j Hj Hfail). reflexivity.
Qed.

Lemma GenerateRandomStringURLSafe_shape_witness :
  GenerateRandomStringURLSafe plain_env (-1) (init_world empty_store)
  = (Panic ErrMakeSlice, init_world empty_store) /\
  (exists str,
     GenerateRandomStringURLSafe plain_env 5 (init_world empty_store)
     = (Next (str, None), set_rand_pos 5 (init_world empty_store)) /\
     String.length str = 8%nat /\
     Forall (fun c => c ∈ list_ascii_of_string encodeURL \/ c = "="%char)
       (list_ascii_of_string str)) /\
  GenerateRandomStringURLSafe short_rand_env 5 (init_world empty_store)
  = (Next (EmptyString, Some ErrRand), set_rand_pos 5 (init_world empty_store)).
Proof.
  split; [|split].
  - apply (proj1 (GenerateRandomStringURLSafe_shape plain_env (-1)
                    (init_world empty_store))). lia.
  - apply (proj1 (proj2 (GenerateRandomStringURLSafe_shape plain_env 5
                           (init_world empty_store)))).
    + lia.
    + intros j _. eexists. reflexivity.
  - apply (proj2 (proj2 (GenerateRandomStringURLSafe_shape short_rand_env 5
                           (init_world empty_store))) 3%nat).
    + cbn. lia.
    + reflexivity.
Defined.
